(** * Deep-learning course notebooks: the precise primitives

    A shallow embedding of the few functions of the notebooks that carry a
    contract of their own:

    - [iou], [tensorize_ground_truth], [interpret_output] and
      [accuracy_and_iou] of the object-detection lab (Lab_5), with the
      label dictionaries, the loop that selects the annotations and
      [compute_acc];
    - [camera_grab] of the convolution lab;
    - [get_predicted_word] and [generate_text] of the RNN assignment, with
      [load_dataset] and the loop that fills the embedding matrix.

    Python integers are unbounded and are modelled by [Z].  Python floats
    are modelled through an interface, [Numeric], with two instances: exact
    rational arithmetic ([Q], the real-number reading of the code) and IEEE
    binary64 ([PrimFloat.float], what the interpreter computes).  Every
    function is written once over the interface.  A result that does not
    depend on the arithmetic is proved for every instance; a result on the
    values is proved for the exact instance where rounding leaves it
    standing, and what [int(.)] makes of a rounded quotient is settled in
    binary64, by evaluation. *)

From Stdlib Require Import ZArith QArith List String Lia Lqa.
From Stdlib Require Import Floats.
Import ListNotations.

Open Scope Z_scope.

(** ** Exceptions and results *)

Module Py.

(** The exceptions the modelled code can raise. *)
Inductive exn : Type :=
| ZeroDivisionError
| OverflowError
| ValueError
| KeyError
| IndexError
| IOError
| CvError.

(** A call either returns a value or raises. *)
Inductive result (A : Type) : Type :=
| Ok (a : A)
| Raise (e : exn).

Arguments Ok {A} a.
Arguments Raise {A} e.

Definition bind {A B : Type} (r : result A) (k : A -> result B) : result B :=
  match r with
  | Ok a => k a
  | Raise e => Raise e
  end.

Definition returned {A : Type} (r : result A) : bool :=
  match r with
  | Ok _ => true
  | Raise _ => false
  end.

End Py.

Import Py.

Declare Scope py_scope.
Delimit Scope py_scope with py.
Notation "x <- c1 ;; c2" := (Py.bind c1 (fun x => c2))
  (at level 61, c1 at next level, right associativity) : py_scope.
Notation "' pat <- c1 ;; c2" := (Py.bind c1 (fun x => match x with pat => c2 end))
  (at level 61, pat pattern, c1 at next level, right associativity) : py_scope.
Open Scope py_scope.

(** ** Float arithmetic as an interface *)

(** The operations the notebooks perform on floats.  [of_Z n] is the float
    nearest to the integer [n] and [is_finite] tells a number from an
    infinity or a NaN; [fdiv] is true division, which raises on a zero
    divisor; [to_int] is [int(x)], truncation toward zero. *)
Class Numeric (F : Type) : Type := {
  of_Z : Z -> F;
  is_finite : F -> bool;
  fadd : F -> F -> F;
  fsub : F -> F -> F;
  fmul : F -> F -> F;
  fdiv : F -> F -> result F;
  fltb : F -> F -> bool;
  to_int : F -> result Z
}.

(** [int(x)] on a rational: truncation toward zero. *)
Definition Qtrunc (q : Q) : Z := Z.quot (Qnum q) (Zpos (Qden q)).

(** Exact arithmetic: the rationals. *)
#[export] Instance exact : Numeric Q := {
  of_Z := inject_Z;
  is_finite _ := true;
  fadd := Qplus;
  fsub := Qminus;
  fmul := Qmult;
  fdiv a b := if Qeq_bool b 0 then Raise ZeroDivisionError else Ok (a / b)%Q;
  fltb a b := negb (Qle_bool b a);
  to_int q := Ok (Qtrunc q)
}.

(** The binary64 number nearest to [n] (ties to even), an infinity when
    [n] is out of range. *)
Definition float_of_Z (n : Z) : float :=
  SF2Prim (binary_normalize prec emax n 0 false).

(** [int(x)] on a binary64 number. *)
Definition float_to_int (x : float) : result Z :=
  match Prim2SF x with
  | S754_zero _ => Ok 0
  | S754_finite s m e =>
      let a := match e with
               | Z0 => Zpos m
               | Zpos p => Zpos m * 2 ^ Zpos p
               | Zneg p => Zpos m / 2 ^ Zpos p
               end in
      Ok (if s then - a else a)
  | S754_infinity _ => Raise OverflowError
  | S754_nan => Raise ValueError
  end.

(** IEEE binary64, evaluated by the kernel's primitive floats.  It agrees
    with the interpreter on integers below 2^53 in absolute value, which
    covers pixel coordinates. *)
#[export] Instance binary64 : Numeric float := {
  of_Z := float_of_Z;
  is_finite f := negb (PrimFloat.is_infinity f || PrimFloat.is_nan f);
  fadd := PrimFloat.add;
  fsub := PrimFloat.sub;
  fmul := PrimFloat.mul;
  fdiv a b :=
    if PrimFloat.eqb b PrimFloat.zero then Raise ZeroDivisionError
    else Ok (PrimFloat.div a b);
  fltb := PrimFloat.ltb;
  to_int := float_to_int
}.

Section Generic.

Context {F : Type} `{Numeric F}.

(** [float(n)], also the implicit conversion of an int operand of a
    float operation: it raises when [n] is too large for a float. *)
Definition of_int (n : Z) : result F :=
  let f := of_Z n in
  if is_finite f then Ok f else Raise OverflowError.

(** [a / b] on two ints: the divisor is tested first, then the quotient
    of the two conversions is taken (the correctly rounded quotient the
    interpreter returns, for operands below 2^53 in absolute value). *)
Definition int_truediv (a b : Z) : result F :=
  if b =? 0 then Raise ZeroDivisionError
  else x <- of_int a ;; y <- of_int b ;; fdiv x y.

(** [max(a, b)] and [min(a, b)] of Python: the first argument wins a tie. *)
Definition pymax (a b : F) : F := if fltb a b then b else a.
Definition pymin (a b : F) : F := if fltb b a then b else a.

(** [np.argmax] on scores that are numbers: the index of the first
    occurrence of the maximum. *)
Fixpoint argmax_from (l : list F) (i : Z) (best : F) (best_i : Z) : Z :=
  match l with
  | [] => best_i
  | x :: r =>
      if fltb best x then argmax_from r (i + 1) x i
      else argmax_from r (i + 1) best best_i
  end.

Definition argmax (l : list F) : result Z :=
  match l with
  | [] => Raise ValueError
  | x :: r => Ok (argmax_from r 1 x 0)
  end.

End Generic.

(** ** Boxes and annotations *)

(** A corner-form box, the four-element list [[x_min, y_min, x_max, y_max]]
    of the notebook (indices 0 to 3). *)
Record box : Type := Box {
  x_min : Z;
  y_min : Z;
  x_max : Z;
  y_max : Z
}.

(** The invariant of the data model: corners are ordered. *)
Definition ordered (b : box) : Prop :=
  x_min b <= x_max b /\ y_min b <= y_max b.

(** ** Intersection over Union (Lab_5, [iou]) *)

(** The local variable [inter_area] of [iou]. *)
Definition inter_area (boxA boxB : box) : Z :=
  let x0 := Z.max (x_min boxA) (x_min boxB) in
  let y0 := Z.max (y_min boxA) (y_min boxB) in
  let x1 := Z.min (x_max boxA) (x_max boxB) in
  let y1 := Z.min (y_max boxA) (y_max boxB) in
  Z.max (x1 - x0) 0 * Z.max (y1 - y0) 0.

(** The local variables [boxA_area] and [boxB_area] of [iou]. *)
Definition box_area (b : box) : Z :=
  (x_max b - x_min b) * (y_max b - y_min b).

(** The argument of [float(.)] in the last line of [iou]. *)
Definition iou_denominator (boxA boxB : box) : Z :=
  box_area boxA + box_area boxB - inter_area boxA boxB.

Definition iou {F : Type} `{Numeric F} (boxA boxB : box) : result F :=
  let inter_area := inter_area boxA boxB in
  let boxA_area := box_area boxA in
  let boxB_area := box_area boxB in
  d <- of_int (boxA_area + boxB_area - inter_area) ;;
  n <- of_int inter_area ;;
  fdiv n d.

(** Two boxes are disjoint when, on at least one axis, the open intervals
    they span share no point. *)
Definition disjoint (boxA boxB : box) : Prop :=
  Z.min (x_max boxA) (x_max boxB) <= Z.max (x_min boxA) (x_min boxB) \/
  Z.min (y_max boxA) (y_max boxB) <= Z.max (y_min boxA) (y_min boxB).

(** [v] is [t] when both are rounded to two decimals' precision. *)
Definition approximately (v t : Q) : Prop :=
  (t - (5 # 1000) <= v)%Q /\ (v < t + (5 # 1000))%Q.

(** The result of a call in exact arithmetic is the rational [q]. *)
Definition yields (r : result Q) (q : Q) : Prop :=
  match r with
  | Ok v => (v == q)%Q
  | Raise _ => False
  end.

(** ** Annotations and the box transform (Lab_5) *)

Record annotation : Type := Annotation {
  ann_size : Z * Z;
  ann_filename : string;
  ann_class : string;
  ann_bbox : box
}.

(** A center-form box, the array [[cx, cy, w, h]]. *)
Record center_box (F : Type) : Type := CenterBox {
  c_x : F;
  c_y : F;
  c_w : F;
  c_h : F
}.

Arguments CenterBox {F} _ _ _ _.
Arguments c_x {F} _.
Arguments c_y {F} _.
Arguments c_w {F} _.
Arguments c_h {F} _.

(** The dictionary [interpret_output] returns. *)
Record output (F : Type) : Type := Output {
  out_class : string;
  out_confidence : F;
  out_bbox : box
}.

Arguments Output {F} _ _ _.
Arguments out_class {F} _.
Arguments out_confidence {F} _.
Arguments out_bbox {F} _.

Definition filters : list string :=
  ["dog"; "cat"; "bus"; "car"; "aeroplane"]%string.

(** [idx2labels[i]], a [KeyError] when [i] is no index of [filters]. *)
Definition idx2labels (i : Z) : result string :=
  if i <? 0 then Raise KeyError
  else match nth_error filters (Z.to_nat i) with
       | Some s => Ok s
       | None => Raise KeyError
       end.

Fixpoint index_from (l : list string) (s : string) (i : Z) : result Z :=
  match l with
  | [] => Raise KeyError
  | x :: r => if String.eqb x s then Ok i else index_from r s (i + 1)
  end.

(** [labels2idx[s]], a [KeyError] when [s] is not one of [filters]. *)
Definition labels2idx (s : string) : result Z := index_from filters s 0.

Definition img_resize : Z := 224.
Definition num_classes : Z := Z.of_nat (List.length filters).

Section Transform.

Context {F : Type} `{Numeric F}.

(** [np.zeros((num_classes))] with a one at [cls_idx]. *)
Definition one_hot (cls_idx : Z) : list F :=
  map (fun i => if Z.of_nat i =? cls_idx then of_Z 1 else of_Z 0)
      (seq 0 (Z.to_nat num_classes)).

(** The body of the loop of [tensorize_ground_truth]: the one-hot class
    and the center-form box of one annotation. *)
Definition tensorize_annotation (a : annotation) : result (list F * center_box F) :=
  cls_idx <- labels2idx (ann_class a) ;;
  let cls := one_hot cls_idx in
  let coords := ann_bbox a in
  let size := ann_size a in
  x1 <- int_truediv (x_min coords * img_resize) (fst size) ;;
  y1 <- int_truediv (y_min coords * img_resize) (snd size) ;;
  x2 <- int_truediv (x_max coords * img_resize) (fst size) ;;
  y2 <- int_truediv (y_max coords * img_resize) (snd size) ;;
  two <- of_int 2 ;;
  cx <- fdiv (fadd x2 x1) two ;;
  cy <- fdiv (fadd y2 y1) two ;;
  let w := fsub x2 x1 in
  let h := fsub y2 y1 in
  Ok (cls, CenterBox cx cy w h).

Fixpoint tensorize_all (annotations : list annotation)
  : result (list (list F) * list (center_box F)) :=
  match annotations with
  | [] => Ok ([], [])
  | a :: rest =>
      '(cls, boxes) <- tensorize_annotation a ;;
      '(all_cls, all_boxes) <- tensorize_all rest ;;
      Ok (cls :: all_cls, boxes :: all_boxes)
  end.

(** [np.vstack] refuses an empty list of rows. *)
Definition tensorize_ground_truth (annotations : list annotation)
  : result (list (list F) * list (center_box F)) :=
  '(all_cls, all_boxes) <- tensorize_all annotations ;;
  match all_cls with
  | [] => Raise ValueError
  | _ => Ok (all_cls, all_boxes)
  end.

(** The list [small_box] of [interpret_output]: the corners at the
    training resolution, clamped to the resized image.  The halves [w / 2]
    and [h / 2] are computed once per corner, as the source writes them. *)
Definition small_box (boxes : center_box F) : result (F * F * F * F) :=
  let cx := c_x boxes in
  let cy := c_y boxes in
  let w := c_w boxes in
  let h := c_h boxes in
  two <- of_int 2 ;;
  zero <- of_int 0 ;;
  res <- of_int img_resize ;;
  hw <- fdiv w two ;;
  hh <- fdiv h two ;;
  hw' <- fdiv w two ;;
  hh' <- fdiv h two ;;
  Ok (pymax zero (fsub cx hw), pymax zero (fsub cy hh),
      pymin res (fadd cx hw'), pymin res (fadd cy hh')).

(** [int(v * n / img_resize)]. *)
Definition rescale (v : F) (n : Z) : result Z :=
  n' <- of_int n ;;
  res <- of_int img_resize ;;
  q <- fdiv (fmul v n') res ;;
  to_int q.

Definition interpret_output (cls : list F) (boxes : center_box F) (img_size : Z * Z)
  : result (output F) :=
  cls_idx <- argmax cls ;;
  let confidence := nth (Z.to_nat cls_idx) cls (of_Z 0) in
  classname <- idx2labels cls_idx ;;
  '(s0, s1, s2, s3) <- small_box boxes ;;
  f0 <- rescale s0 (fst img_size) ;;
  f1 <- rescale s1 (snd img_size) ;;
  f2 <- rescale s2 (fst img_size) ;;
  f3 <- rescale s3 (snd img_size) ;;
  Ok (Output classname confidence (Box f0 f1 f2 f3)).

(** The sanity check of the lab: the annotations are tensorized, and the
    tensors of the annotation [img_idx] are interpreted at that
    annotation's own image size. *)
Definition sanity_check (annotations : list annotation) (img_idx : nat)
  : result (output F) :=
  '(classes, boxes) <- tensorize_ground_truth annotations ;;
  match nth_error classes img_idx, nth_error boxes img_idx,
        nth_error annotations img_idx with
  | Some cls, Some b, Some a => interpret_output cls b (ann_size a)
  | _, _, _ => Raise IndexError
  end.

End Transform.

(** A coordinate [c] brought to the training resolution of an image that
    is [n] pixels wide (or high), as a rational. *)
Definition scaled (c n : Z) : Q := (inject_Z (c * img_resize) / inject_Z n)%Q.

(** The annotations on which the transform is meant to work: a known
    class, an image of positive size and a box within the image. *)
Definition within_image (a : annotation) : Prop :=
  In (ann_class a) filters /\
  0 < fst (ann_size a) /\ 0 < snd (ann_size a) /\
  0 <= x_min (ann_bbox a) /\ x_max (ann_bbox a) <= fst (ann_size a) /\
  0 <= y_min (ann_bbox a) /\ y_max (ann_bbox a) <= snd (ann_size a).

(** ** The transform, axis by axis *)

(** What the contract of the transform asks for, written for one axis: the
    same operations on the x-related values with the width and on the
    y-related values with the height.  These four definitions are the
    reference the two functions of the lab are compared with. *)

Section Axis.

Context {F : Type} `{Numeric F}.





End Axis.

(** ** Accuracy (Lab_5, [accuracy_and_iou]) *)

Section Accuracy.

Context {F : Type} `{Numeric F}.

(** The three running sums of the loop. *)
Record sums : Type := Sums {
  sum_valid : Z;
  sum_accurate : Z;
  sum_iou : F
}.

(** One iteration of the loop, on the pair [(pred, true)] ([true_] here). *)
Definition accuracy_step (threshold : F) (acc : sums) (pred : output F) (true_ : annotation)
  : result sums :=
  iou_value <- iou (out_bbox pred) (ann_bbox true_) ;;
  let sum_valid :=
    if String.eqb (out_class pred) (ann_class true_) && fltb threshold iou_value
    then sum_valid acc + 1 else sum_valid acc in
  let sum_iou := fadd (sum_iou acc) iou_value in
  let sum_accurate :=
    if String.eqb (out_class pred) (ann_class true_)
    then sum_accurate acc + 1 else sum_accurate acc in
  Ok (Sums sum_valid sum_accurate sum_iou).

(** The loop over [zip(preds, trues)]. *)
Fixpoint accuracy_loop (threshold : F) (acc : sums) (pairs : list (output F * annotation))
  : result sums :=
  match pairs with
  | [] => Ok acc
  | (pred, true_) :: rest =>
      acc' <- accuracy_step threshold acc pred true_ ;;
      accuracy_loop threshold acc' rest
  end.

Definition accuracy_and_iou (preds : list (output F)) (trues : list annotation) (threshold : F)
  : result (F * F * F) :=
  let num := Z.of_nat (List.length preds) in
  s <- accuracy_loop threshold (Sums 0 0 (of_Z 0)) (combine preds trues) ;;
  a <- int_truediv (sum_accurate s) num ;;
  num' <- of_int num ;;
  i <- fdiv (sum_iou s) num' ;;
  v <- int_truediv (sum_valid s) num ;;
  Ok (a, i, v).

(** The pairs whose classes match, and those that moreover have an IoU
    above the threshold: what the two counters count. *)
Definition class_match (p : output F * annotation) : bool :=
  String.eqb (out_class (fst p)) (ann_class (snd p)).

Definition valid_match (threshold : F) (p : output F * annotation) : bool :=
  class_match p &&
  match iou (out_bbox (fst p)) (ann_bbox (snd p)) with
  | Ok v => fltb threshold v
  | Raise _ => false
  end.

End Accuracy.

Arguments sums F : clear implicits.

(** The IoU of a pair in exact arithmetic (zero where [iou] raises), and
    the sum of the IoUs of a list of pairs. *)
Definition pair_iou (p : output Q * annotation) : Q :=
  match iou (out_bbox (fst p)) (ann_bbox (snd p)) with
  | Ok v => v
  | Raise _ => 0%Q
  end.

Definition iou_total (pairs : list (output Q * annotation)) : Q :=
  fold_right (fun p s => (pair_iou p + s)%Q) 0%Q pairs.

(** No pair makes [iou] divide by zero. *)
Definition iou_defined (pairs : list (output Q * annotation)) : Prop :=
  Forall (fun p => iou_denominator (out_bbox (fst p)) (ann_bbox (snd p)) <> 0) pairs.

(** The number of pairs that satisfy [f], as a rational. *)
Definition count (f : output Q * annotation -> bool)
           (pairs : list (output Q * annotation)) : Q :=
  inject_Z (Z.of_nat (List.length (filter f pairs))).

(** ** Webcam snapshot (convolution lab, [camera_grab]) *)

Module Camera.

Section Grab.

(** Frames are opaque; [camera.read()] returns a flag and a frame, the
    frame being [None] when the flag is false. *)
Variable image : Type.

Inductive value : Type :=
| PyNone
| Img (i : image).

(** The world the function acts on: whether the capture device is
    held, how many frames were read from it, and what was printed. *)
Record world : Type := World {
  camera_held : bool;
  frames_read : nat;
  printed : list string
}.

(** The collaborators: the outcome of the [k]-th [camera.read()],
    [cv2.cvtColor] and [imread]; each may raise.  Opening and releasing
    the device do not raise: OpenCV reports a device it could not open
    through the flag of the reads. *)
Variable read_outcome : nat -> result (bool * value).
Variable cvtColor : value -> result value.
Variable imread : string -> result value.

(** A statement runs in a world and leaves a world, whether it returns
    or raises. *)
Definition action (A : Type) : Type := world -> result A * world.

Definition ret {A : Type} (a : A) : action A := fun w => (Ok a, w).

Definition seq_action {A B : Type} (m : action A) (k : A -> action B) : action B :=
  fun w =>
    match m w with
    | (Ok a, w') => k a w'
    | (Raise e, w') => (Raise e, w')
    end.

(** [try: body finally: handler]: the handler runs on every path, and
    an exception of the body propagates after it. *)
Definition try_finally {A : Type} (body : action A) (handler : action unit) : action A :=
  fun w =>
    let (r, w') := body w in
    match handler w' with
    | (Ok _, w'') => (r, w'')
    | (Raise e, w'') => (Raise e, w'')
    end.

Definition video_capture : action unit :=
  fun w => (Ok tt, World true (frames_read w) (printed w)).

Definition camera_read : action (bool * value) :=
  fun w => (read_outcome (frames_read w),
            World (camera_held w) (S (frames_read w)) (printed w)).

Definition camera_release : action unit :=
  fun w => (Ok tt, World false (frames_read w) (printed w)).

Definition print (s : string) : action unit :=
  fun w => (Ok tt, World (camera_held w) (frames_read w) (printed w ++ [s])).

Definition lift {A : Type} (r : result A) : action A := fun w => (r, w).

(** [for i in range(n): snapshot_ok, image = camera.read()], from the
    current values of the two variables. *)
Fixpoint read_loop (n : nat) (cur : bool * value) : action (bool * value) :=
  match n with
  | O => ret cur
  | S n' => seq_action camera_read (fun r => read_loop n' r)
  end.

(** The truth value of [fallback_filename] in [if fallback_filename:]. *)
Definition truthy (fallback_filename : option string) : bool :=
  match fallback_filename with
  | None => false
  | Some s => negb (String.eqb s EmptyString)
  end.

Definition grab_body (fallback_filename : option string) : action value :=
  seq_action (read_loop 10 (false, PyNone)) (fun '(snapshot_ok, image) =>
    if snapshot_ok then lift (cvtColor image)
    else
      seq_action (print "WARNING: could not access camera") (fun _ =>
        if truthy fallback_filename then
          match fallback_filename with
          | Some f => lift (imread f)
          | None => ret image
          end
        else ret image)).

Definition camera_grab (camera_id : Z) (fallback_filename : option string)
  : action value :=
  seq_action video_capture (fun _ =>
    try_finally (grab_body fallback_filename) camera_release).

End Grab.

Arguments PyNone {image}.
Arguments Img {image} i.

End Camera.

(** ** Text generation (RNN assignment) *)

Module TextGen.

Section Generation.

(** The vocabulary size, [None] in the notebook until the learner sets
    it. *)
Variable VOCAB_SIZE : Z.

(** The model: a sequence in, a distribution over the vocabulary out. *)
Variables model tokenizer sequence : Type.
Variable predict : model -> sequence -> list Q.

(** The number of cumulative sums of [p], from [acc], that are at most
    [u]: [cdf.searchsorted(u, side='right')] on the running sums. *)
Fixpoint searchsorted (p : list Q) (acc u : Q) (i : Z) : Z :=
  match p with
  | [] => i
  | x :: r =>
      if negb (Qle_bool (acc + x) u) then i
      else searchsorted r (acc + x)%Q u (i + 1)
  end.

(** The machine epsilon of the single-precision numbers the model
    returns. *)
Definition float32_eps : Q := 1 # 8388608.

(** [np.random.choice(range(n), p=p)], a library function, from a uniform
    draw [u] of [[0, 1)].  The number of probabilities and their signs are
    checked; their sum may differ from 1 by the square root of the machine
    epsilon at most (the test is on the squares here); the index is then
    found by inverting the cumulative distribution, divided by its last
    entry. *)
Definition random_choice (n : Z) (p : list Q) (u : Q) : result Z :=
  let total := fold_right Qplus 0%Q p in
  if negb (Z.of_nat (List.length p) =? n) then Raise ValueError
  else if existsb (fun x => negb (Qle_bool 0 x)) p then Raise ValueError
  else if negb (Qle_bool ((total - 1) * (total - 1)) float32_eps) then Raise ValueError
  else Ok (searchsorted p 0%Q (u * total) 0).

(** A call returns its value together with the queries it made to the
    model. *)
Definition get_predicted_word (m : model) (s : sequence) (u : Q)
  : result Z * list sequence :=
  let yhat := predict m s in
  (random_choice VOCAB_SIZE yhat u, [s]).

(** The body of [generate_text] is the single statement [return None]. *)
Definition generate_text (m : model) (t : tokenizer) (seed_text : string)
                         (max_sequence_len : Z)
  : option string * list sequence :=
  (None, []).

End Generation.

End TextGen.

(** ** Moving and resizing boxes *)

(** The box moved by [(dx, dy)], and the box of an image enlarged [k]
    times: what a crop or a resize of the image does to an annotation. *)
Definition translate (dx dy : Z) (b : box) : box :=
  Box (x_min b + dx) (y_min b + dy) (x_max b + dx) (y_max b + dy).

Definition enlarge (k : Z) (b : box) : box :=
  Box (k * x_min b) (k * y_min b) (k * x_max b) (k * y_max b).

(** [inner] lies within [outer]. *)
Definition inside (inner outer : box) : Prop :=
  x_min outer <= x_min inner /\ x_max inner <= x_max outer /\
  y_min outer <= y_min inner /\ y_max inner <= y_max outer.

(** Corners strictly ordered: a box of positive width and height. *)
Definition proper (b : box) : Prop :=
  x_min b < x_max b /\ y_min b < y_max b.

(** ** Selecting the annotations (Lab_5, the loop after
    [extract_xml_annotation]) *)

(** What [extract_xml_annotation] returns for one file: the image size,
    the file name and the objects, each a one-key dictionary from its
    label to its box. *)
Record parsed : Type := Parsed {
  p_size : Z * Z;
  p_filename : string;
  p_objects : list (string * box)
}.

(** [list(obj.keys())[0] in filters]. *)
Definition of_interest (obj : string * box) : bool :=
  existsb (String.eqb (fst obj)) filters.

(** The body of the loop: the objects of interest are collected, and the
    file is kept only when there is exactly one. *)
Definition select_annotation (p : parsed) : option annotation :=
  let new_objects := filter of_interest (p_objects p) in
  match new_objects with
  | [obj] => Some (Annotation (p_size p) (p_filename p) (fst obj) (snd obj))
  | _ => None
  end.

(** The loop over the parsed files, in the order of the directory
    listing. *)
Fixpoint select_annotations (files : list parsed) : list annotation :=
  match files with
  | [] => []
  | p :: rest =>
      match select_annotation p with
      | Some a => a :: select_annotations rest
      | None => select_annotations rest
      end
  end.

(** An annotation [tensorize_ground_truth] can work on: a known class
    and an image whose width and height are not zero. *)
Definition usable (a : annotation) : Prop :=
  In (ann_class a) filters /\ fst (ann_size a) <> 0 /\ snd (ann_size a) <> 0.

(** ** Evaluating a model (Lab_5, [compute_acc]) *)

(** [l[beg:end]] for indices that are not negative. *)
Definition slice {A : Type} (l : list A) (beg end_ : Z) : list A :=
  firstn (Z.to_nat (end_ - beg)) (skipn (Z.to_nat beg) l).

Section Evaluation.

Context {F : Type} `{Numeric F}.

(** The representations of the images, and the model: a batch of
    representations in, the class scores and the boxes out, one row per
    image. *)
Variable repr : Type.
Variable predict : list repr -> list (list F) * list (center_box F).

(** The loop over [enumerate(zip(res[0], res[1]))]: the prediction
    [index] is interpreted at the size of [annotations[index]]. *)
Fixpoint interpret_outputs (annotations : list annotation) (index : nat)
         (rows : list (list F * center_box F)) : result (list (output F)) :=
  match rows with
  | [] => Ok []
  | (classes, boxes) :: rest =>
      match nth_error annotations index with
      | None => Raise IndexError
      | Some a =>
          output <- interpret_output classes boxes (ann_size a) ;;
          outputs <- interpret_outputs annotations (S index) rest ;;
          Ok (output :: outputs)
      end
  end.

(** [compute_acc] prints the name of the split and the three numbers
    [accuracy_and_iou] returns; they are its result here.  [half] is the
    literal [0.5] of the call, and [reprs] and [annotations] are the two
    global lists the function reads. *)
Definition compute_acc (half : F) (reprs : list repr) (annotations : list annotation)
           (train : bool) : result (string * F * F * F) :=
  let n_samples := Z.of_nat (List.length annotations) in
  let '(beg, end_, split_name) :=
    if train then (0, 9 * n_samples / 10, "train"%string)
    else (9 * n_samples / 10, n_samples, "test"%string) in
  let res := predict (slice reprs beg end_) in
  outputs <- interpret_outputs annotations 0 (combine (fst res) (snd res)) ;;
  '(acc, iou_, valid) <- accuracy_and_iou outputs (slice annotations beg end_) half ;;
  Ok (split_name, acc, iou_, valid).

End Evaluation.

(** The output that repeats an annotation with full confidence. *)
Definition perfect (a : annotation) : output Q :=
  Output (ann_class a) (inject_Z 1) (ann_bbox a).

(** ** Loading the corpus (RNN assignment, [load_dataset]) *)

(** [text[:k]] on a list, for any integer [k]: a negative [k] counts from
    the end. *)
Definition py_prefix {A : Type} (text : list A) (k : Z) : list A :=
  if k <? 0 then firstn (Z.to_nat (Z.of_nat (List.length text) + k)) text
  else firstn (Z.to_nat k) text.

Section Corpus.

Context {F : Type} `{Numeric F}.

(** A text is a list of characters; [read_text] is the outcome of opening
    the file and reading it whole, which may raise. *)
Variable char : Type.
Variable read_text : string -> result (list char).

Definition load_dataset (file_path : string) (fraction : F) : result (list char) :=
  raw_text <- read_text file_path ;;
  len <- of_int (Z.of_nat (List.length raw_text)) ;;
  k <- to_int (fmul fraction len) ;;
  Ok (py_prefix raw_text k).

End Corpus.

(** ** The embedding matrix (RNN assignment, the loop over
    [tokenizer.word_index]) *)

Section Embedding.

(** A row of the matrix, that is a word vector; [zero_row] is a row of
    [np.zeros]. *)
Variable row : Type.
Variable zero_row : row.

(** [matrix[i] = v] on an array of rows: a negative index counts from the
    end, and an index outside the array raises. *)
Fixpoint set_nth (matrix : list row) (n : nat) (v : row) : list row :=
  match matrix, n with
  | [], _ => []
  | _ :: rest, O => v :: rest
  | r :: rest, S n' => r :: set_nth rest n' v
  end.

Definition assign_row (matrix : list row) (i : Z) (v : row) : result (list row) :=
  let size := Z.of_nat (List.length matrix) in
  if (i <? - size) || (size <=? i) then Raise IndexError
  else if i <? 0 then Ok (set_nth matrix (Z.to_nat (size + i)) v)
  else Ok (set_nth matrix (Z.to_nat i) v).

(** The loop over [tokenizer.word_index.items()], from the current
    matrix. *)
Fixpoint fill_embeddings (VOCAB_SIZE : Z) (embeddings_index : string -> option row)
         (items : list (string * Z)) (embedding_matrix : list row)
  : result (list row) :=
  match items with
  | [] => Ok embedding_matrix
  | (word, i) :: rest =>
      if i <? VOCAB_SIZE then
        match embeddings_index word with
        | Some embedding_vector =>
            m <- assign_row embedding_matrix i embedding_vector ;;
            fill_embeddings VOCAB_SIZE embeddings_index rest m
        | None => fill_embeddings VOCAB_SIZE embeddings_index rest embedding_matrix
        end
      else fill_embeddings VOCAB_SIZE embeddings_index rest embedding_matrix
  end.

(** [np.zeros((VOCAB_SIZE, 100))], which refuses a negative dimension,
    then the loop. *)
Definition build_embedding_matrix (VOCAB_SIZE : Z)
           (embeddings_index : string -> option row)
           (word_index : list (string * Z)) : result (list row) :=
  if VOCAB_SIZE <? 0 then Raise ValueError
  else fill_embeddings VOCAB_SIZE embeddings_index word_index
                       (repeat zero_row (Z.to_nat VOCAB_SIZE)).

End Embedding.

(** ** The round trip of one axis *)

(** What [tensorize_ground_truth] followed by [interpret_output] computes
    for the two coordinates [c0 <= c1] of one axis of a box, on an image
    that is [n] pixels long on that axis: the operations of the two
    functions that involve that axis, in their order. *)
Definition axis_round_trip {F : Type} `{Numeric F} (c0 c1 n : Z) : result (Z * Z) :=
  x1 <- int_truediv (c0 * img_resize) n ;;
  x2 <- int_truediv (c1 * img_resize) n ;;
  two <- of_int 2 ;;
  cx <- fdiv (fadd x2 x1) two ;;
  let w := fsub x2 x1 in
  two' <- of_int 2 ;;
  zero <- of_int 0 ;;
  res <- of_int img_resize ;;
  hw <- fdiv w two' ;;
  hw' <- fdiv w two' ;;
  f0 <- rescale (pymax zero (fsub cx hw)) n ;;
  f1 <- rescale (pymin res (fadd cx hw')) n ;;
  Ok (f0, f1).

(** [r] is [c] or the integer just below. *)
Definition within_one (c r : Z) : bool := (r =? c) || (r =? c - 1).

(** The binary64 round trip of the pair [(c0, c1)] returns, each
    coordinate within one pixel below the original. *)
Definition axis_ok (n c0 c1 : Z) : bool :=
  match axis_round_trip (F := float) c0 c1 n with
  | Ok (a0, a1) => within_one c0 a0 && within_one c1 a1
  | Raise _ => false
  end.

(** [int(x)] on a binary64 number, with a shift for the division by a
    power of two. *)
Definition float_to_int_shift (x : float) : result Z :=
  match Prim2SF x with
  | S754_zero _ => Ok 0
  | S754_finite s m e =>
      let a := match e with
               | Z0 => Zpos m
               | Zpos p => Z.shiftl (Zpos m) (Zpos p)
               | Zneg p => Z.shiftr (Zpos m) (Zpos p)
               end in
      Ok (if s then - a else a)
  | S754_infinity _ => Raise OverflowError
  | S754_nan => Raise ValueError
  end.

(** The round trip of one axis from the two scaled coordinates [x1] and
    [x2], the four constants being converted once. *)
Definition axis_tail (two zero res n' x1 x2 : float) : result (Z * Z) :=
  cx <- fdiv (fadd x2 x1) two ;;
  hw <- fdiv (fsub x2 x1) two ;;
  q0 <- fdiv (fmul (pymax zero (fsub cx hw)) n') res ;;
  f0 <- float_to_int_shift q0 ;;
  q1 <- fdiv (fmul (pymin res (fadd cx hw)) n') res ;;
  f1 <- float_to_int_shift q1 ;;
  Ok (f0, f1).

Definition pair_ok (two zero res n' : float) (c0 c1 : Z) (r0 r1 : result float) : bool :=
  match r0, r1 with
  | Ok x1, Ok x2 =>
      match axis_tail two zero res n' x1 x2 with
      | Ok (a0, a1) => within_one c0 a0 && within_one c1 a1
      | Raise _ => false
      end
  | _, _ => false
  end.

(** The scaled coordinates [k * img_resize / n] for [count] values of
    [k], from [k]. *)
Fixpoint scaled_from (n k : Z) (count : nat) : list (result float) :=
  match count with
  | O => []
  | S c => int_truediv (k * img_resize) n :: scaled_from n (k + 1) c
  end.

(** [pair_ok] on [c0] and every coordinate from [c1], and on every pair
    of coordinates from [c0]. *)
Fixpoint tails_ok (two zero res n' : float) (c0 : Z) (r0 : result float)
         (c1 : Z) (rs : list (result float)) : bool :=
  match rs with
  | [] => true
  | r1 :: rest =>
      pair_ok two zero res n' c0 c1 r0 r1 && tails_ok two zero res n' c0 r0 (c1 + 1) rest
  end.

Fixpoint all_ok (two zero res n' : float) (c0 : Z) (rs : list (result float)) : bool :=
  match rs with
  | [] => true
  | r0 :: rest =>
      tails_ok two zero res n' c0 r0 c0 rs && all_ok two zero res n' (c0 + 1) rest
  end.

(** The round trip is within one pixel on every pair [0 <= c0 <= c1 <= n]
    of an axis of [n] pixels. *)
Definition axis_all_ok (n : nat) : bool :=
  match of_int (F := float) 2, of_int (F := float) 0,
        of_int (F := float) img_resize, of_int (F := float) (Z.of_nat n) with
  | Ok two, Ok zero, Ok res, Ok n' =>
      all_ok two zero res n' 0 (scaled_from (Z.of_nat n) 0 (S n))
  | _, _, _, _ => false
  end.

(** A center-form box that lies in the resized image and has a width and
    a height that are not negative. *)
Definition in_resized_image (b : center_box Q) : Prop :=
  (0 <= c_w b)%Q /\ (0 <= c_h b)%Q /\
  (0 <= c_x b - c_w b / 2)%Q /\ (c_x b + c_w b / 2 <= inject_Z img_resize)%Q /\
  (0 <= c_y b - c_h b / 2)%Q /\ (c_y b + c_h b / 2 <= inject_Z img_resize)%Q.

(** * Properties *)

(** ** Calls that return *)

Lemma bind_Ok {A B : Type} (c : result A) (k : A -> result B) (v : B) :
  Py.bind c k = Ok v -> exists a, c = Ok a /\ k a = Ok v.
Proof.
  destruct c as [a | e]; simpl; [|discriminate].
  intros Hk. exists a. split; [reflexivity | exact Hk].
Qed.

(** ** The exact instance, operation by operation *)

Lemma Qeq_bool_inject_Z (n : Z) : Qeq_bool (inject_Z n) 0 = (n =? 0).
Proof.
  unfold Qeq_bool, inject_Z; simpl.
  rewrite Z.mul_1_r.
  destruct n; reflexivity.
Qed.

Lemma exact_of_int (n : Z) : of_int (F := Q) n = Ok (inject_Z n).
Proof. reflexivity. Qed.

Lemma exact_fdiv (a b : Q) :
  ~ (b == 0)%Q -> fdiv a b = Ok (a / b)%Q.
Proof.
  intros Hb. simpl.
  destruct (Qeq_bool b 0) eqn:E; [|reflexivity].
  apply Qeq_bool_eq in E. contradiction.
Qed.

Lemma inject_Z_nonzero (n : Z) : n <> 0 -> ~ (inject_Z n == 0)%Q.
Proof.
  intros Hn E. apply Hn.
  unfold Qeq, inject_Z in E; simpl in E. lia.
Qed.

Lemma exact_int_truediv (a b : Z) :
  b <> 0 -> int_truediv (F := Q) a b = Ok (inject_Z a / inject_Z b)%Q.
Proof.
  intros Hb. unfold int_truediv.
  apply Z.eqb_neq in Hb. rewrite Hb. apply Z.eqb_neq in Hb.
  rewrite !exact_of_int. simpl Py.bind.
  apply exact_fdiv, inject_Z_nonzero, Hb.
Qed.

Lemma exact_int_truediv_zero (a : Z) :
  int_truediv (F := Q) a 0 = Raise ZeroDivisionError.
Proof. reflexivity. Qed.

(** ** Intersection over Union *)

Lemma iou_exact (boxA boxB : box) :
  iou (F := Q) boxA boxB =
  if iou_denominator boxA boxB =? 0 then Raise ZeroDivisionError
  else Ok (inject_Z (inter_area boxA boxB) / inject_Z (iou_denominator boxA boxB))%Q.
Proof.
  unfold iou. rewrite !exact_of_int. simpl Py.bind.
  fold (iou_denominator boxA boxB).
  simpl fdiv. rewrite Qeq_bool_inject_Z. reflexivity.
Qed.

Lemma inter_area_nonneg (boxA boxB : box) : 0 <= inter_area boxA boxB.
Proof. unfold inter_area. cbv zeta. nia. Qed.

Lemma inter_area_comm (boxA boxB : box) :
  inter_area boxA boxB = inter_area boxB boxA.
Proof.
  unfold inter_area. cbv zeta.
  rewrite (Z.max_comm (x_min boxA)), (Z.max_comm (y_min boxA)).
  rewrite (Z.min_comm (x_max boxA)), (Z.min_comm (y_max boxA)).
  reflexivity.
Qed.

Lemma inter_area_le_l (boxA boxB : box) :
  ordered boxA -> inter_area boxA boxB <= box_area boxA.
Proof.
  unfold ordered, inter_area, box_area. cbv zeta. intros [Hx Hy].
  apply Z.mul_le_mono_nonneg; lia.
Qed.

Lemma inter_area_le_r (boxA boxB : box) :
  ordered boxB -> inter_area boxA boxB <= box_area boxB.
Proof.
  intros HB. rewrite inter_area_comm. apply inter_area_le_l, HB.
Qed.

Lemma box_area_nonneg (b : box) : ordered b -> 0 <= box_area b.
Proof. unfold ordered, box_area. intros [Hx Hy]. nia. Qed.

Lemma inter_area_self (b : box) :
  x_min b < x_max b -> y_min b < y_max b -> inter_area b b = box_area b.
Proof.
  unfold inter_area, box_area. cbv zeta. intros Hx Hy.
  rewrite !Z.max_id, !Z.min_id.
  rewrite !Z.max_l by lia. reflexivity.
Qed.

Lemma inter_area_disjoint (boxA boxB : box) :
  disjoint boxA boxB -> inter_area boxA boxB = 0.
Proof.
  unfold disjoint, inter_area. cbv zeta. intros [Hx | Hy].
  - rewrite (Z.max_r _ 0) by lia. reflexivity.
  - rewrite (Z.max_r (_ - Z.max (y_min boxA) _) 0) by lia. apply Z.mul_0_r.
Qed.

Lemma iou_denominator_zero (boxA boxB : box) :
  ordered boxA -> ordered boxB ->
  (iou_denominator boxA boxB = 0 <-> box_area boxA = 0 /\ box_area boxB = 0).
Proof.
  intros HA HB. unfold iou_denominator.
  pose proof (inter_area_le_l boxA boxB HA).
  pose proof (inter_area_le_r boxA boxB HB).
  pose proof (inter_area_nonneg boxA boxB).
  pose proof (box_area_nonneg boxA HA).
  pose proof (box_area_nonneg boxB HB).
  lia.
Qed.

Lemma Qdiv_inject_one (a b : Z) :
  b <> 0 -> ((inject_Z a / inject_Z b == 1)%Q <-> a = b).
Proof.
  intros Hb. pose proof (inject_Z_nonzero b Hb) as Hq. split.
  - intros E. apply inject_Z_injective.
    rewrite <- (Qmult_1_l (inject_Z b)), <- E. field. exact Hq.
  - intros ->. field. exact Hq.
Qed.

Lemma Qdiv_inject_zero (b : Z) : (inject_Z 0 / inject_Z b == 0)%Q.
Proof. unfold Qdiv. apply Qmult_0_l. Qed.

Lemma iou_returns_iff (boxA boxB : box) :
  returned (iou (F := Q) boxA boxB) = true <-> iou_denominator boxA boxB <> 0.
Proof.
  rewrite iou_exact.
  destruct (iou_denominator boxA boxB =? 0) eqn:E; simpl.
  - apply Z.eqb_eq in E. split; [discriminate | intros Hd; contradiction].
  - apply Z.eqb_neq in E. split; [intros _; exact E | reflexivity].
Qed.

Lemma iou_raises_iff (boxA boxB : box) :
  iou (F := Q) boxA boxB = Raise ZeroDivisionError <-> iou_denominator boxA boxB = 0.
Proof.
  rewrite iou_exact.
  destruct (iou_denominator boxA boxB =? 0) eqn:E.
  - apply Z.eqb_eq in E. split; [intros _; exact E | reflexivity].
  - apply Z.eqb_neq in E. split; [discriminate | intros Hd; contradiction].
Qed.

(** C1 (as amended).  [iou(A, A)] is exactly 1 precisely for the boxes of
    positive width and height: for every corner-form box [A] with
    [x_min < x_max] and [y_min < y_max] the call returns 1.0, and for no
    other box does it.  The call of the notebook,
    [iou([47,35,147,101], [47,35,147,101])], returns 1.0 in exact and in
    binary64 arithmetic. *)
Theorem iou_identical :
  (forall A : box,
     yields (iou A A) 1 <-> x_min A < x_max A /\ y_min A < y_max A) /\
  yields (iou (Box 47 35 147 101) (Box 47 35 147 101)) 1 /\
  iou (F := float) (Box 47 35 147 101) (Box 47 35 147 101) = Ok 1%float.
Proof.
  split; [|split].
  - intros A. unfold yields. rewrite iou_exact. split.
    + destruct (iou_denominator A A =? 0) eqn:E; [intros []|].
      apply Z.eqb_neq in E. intros Hq.
      apply (proj1 (Qdiv_inject_one _ _ E)) in Hq.
      revert E Hq. unfold iou_denominator, inter_area, box_area. cbv zeta.
      rewrite !Z.max_id, !Z.min_id. intros E Hq.
      destruct (Z_lt_le_dec (x_min A) (x_max A)) as [Hx | Hx];
        destruct (Z_lt_le_dec (y_min A) (y_max A)) as [Hy | Hy].
      * split; assumption.
      * exfalso. rewrite (Z.max_r (y_max A - y_min A) 0) in * by lia.
        rewrite Z.mul_0_r in *. lia.
      * exfalso. rewrite (Z.max_r (x_max A - x_min A) 0) in * by lia.
        rewrite Z.mul_0_l in *. lia.
      * exfalso. rewrite (Z.max_r (x_max A - x_min A) 0) in * by lia.
        rewrite Z.mul_0_l in *. lia.
    + intros [Hx Hy].
      assert (Hd : iou_denominator A A = box_area A)
        by (unfold iou_denominator; rewrite inter_area_self by assumption; lia).
      assert (Hpos : 0 < box_area A) by (unfold box_area; nia).
      rewrite Hd, inter_area_self by assumption.
      destruct (box_area A =? 0) eqn:E; [apply Z.eqb_eq in E; lia|].
      apply Qdiv_inject_one; [lia | reflexivity].
  - vm_compute. reflexivity.
  - vm_compute. reflexivity.
Qed.

(** C1 as stated fails on a box of zero area: [iou(A, A)] with
    [A = [10, 20, 10, 60]] divides by zero, in exact and in binary64
    arithmetic. *)
Lemma iou_identical_zero_area :
  ordered (Box 10 20 10 60) /\
  ~ yields (iou (Box 10 20 10 60) (Box 10 20 10 60)) 1 /\
  iou (F := Q) (Box 10 20 10 60) (Box 10 20 10 60) = Raise ZeroDivisionError /\
  iou (F := float) (Box 10 20 10 60) (Box 10 20 10 60) = Raise ZeroDivisionError.
Proof.
  split; [unfold ordered; simpl; lia|].
  split; [vm_compute; tauto|].
  split; vm_compute; reflexivity.
Qed.

(** C2 (as amended).  For every pair of disjoint corner-form boxes with
    ordered corners of which at least one has positive area, the
    intersection area is zero, each axis being floored by [max(., 0)], and
    [iou] returns exactly 0.0; the call of the notebook,
    [iou([47,35,147,101], [1,124,496,235])], returns 0.0 in exact and in
    binary64 arithmetic. *)
Theorem iou_disjoint (A B : box) :
  ordered A -> ordered B -> disjoint A B ->
  0 < box_area A \/ 0 < box_area B ->
  inter_area A B = 0 /\
  yields (iou A B) 0 /\
  (disjoint (Box 47 35 147 101) (Box 1 124 496 235) /\
   yields (iou (Box 47 35 147 101) (Box 1 124 496 235)) 0 /\
   iou (F := float) (Box 47 35 147 101) (Box 1 124 496 235) = Ok 0%float).
Proof.
  intros HA HB Hdis Hpos.
  pose proof (inter_area_disjoint A B Hdis) as Hi.
  split; [exact Hi|]. split.
  - unfold yields. rewrite iou_exact.
    pose proof (box_area_nonneg A HA). pose proof (box_area_nonneg B HB).
    destruct (iou_denominator A B =? 0) eqn:E.
    + apply Z.eqb_eq in E. unfold iou_denominator in E. lia.
    + rewrite Hi. apply Qdiv_inject_zero.
  - split; [|split].
    + right. simpl. lia.
    + vm_compute. reflexivity.
    + vm_compute. reflexivity.
Qed.

Lemma iou_disjoint_witness :
  inter_area (Box 47 35 147 101) (Box 1 124 496 235) = 0 /\
  yields (iou (Box 47 35 147 101) (Box 1 124 496 235)) 0.
Proof.
  pose proof (iou_disjoint (Box 47 35 147 101) (Box 1 124 496 235)) as H.
  assert (HA : ordered (Box 47 35 147 101)) by (unfold ordered; simpl; lia).
  assert (HB : ordered (Box 1 124 496 235)) by (unfold ordered; simpl; lia).
  assert (Hd : disjoint (Box 47 35 147 101) (Box 1 124 496 235))
    by (right; simpl; lia).
  assert (Hp : 0 < box_area (Box 47 35 147 101) \/ 0 < box_area (Box 1 124 496 235))
    by (left; vm_compute; reflexivity).
  destruct (H HA HB Hd Hp) as [H1 [H2 _]].
  split; assumption.
Defined.

(** C2 as stated fails on two disjoint boxes that both have zero area:
    [iou([10,20,10,60], [30,20,30,60])] divides by zero. *)
Lemma iou_disjoint_zero_area :
  ordered (Box 10 20 10 60) /\ ordered (Box 30 20 30 60) /\
  disjoint (Box 10 20 10 60) (Box 30 20 30 60) /\
  ~ yields (iou (Box 10 20 10 60) (Box 30 20 30 60)) 0 /\
  iou (F := Q) (Box 10 20 10 60) (Box 30 20 30 60) = Raise ZeroDivisionError /\
  iou (F := float) (Box 10 20 10 60) (Box 30 20 30 60) = Raise ZeroDivisionError.
Proof.
  split; [unfold ordered; simpl; lia|].
  split; [unfold ordered; simpl; lia|].
  split; [left; simpl; lia|].
  split; [vm_compute; tauto|].
  split; vm_compute; reflexivity.
Qed.

(** C3.  [iou] is symmetric: for every pair of corner-form boxes,
    [iou(A, B)] and [iou(B, A)] are the same result (the same number or the
    same exception), whatever the float arithmetic. *)
Theorem iou_symmetric (F : Type) (N : Numeric F) (A B : box) :
  iou (F := F) A B = iou (F := F) B A.
Proof.
  unfold iou.
  rewrite (inter_area_comm B A).
  rewrite (Z.add_comm (box_area B) (box_area A)).
  reflexivity.
Qed.

(** C4 (as amended).  On [A = [47,35,147,101]] and [B = [49,36,145,100]],
    with [B] nested inside [A], [iou(A, B)] is the area of [B] over the
    area of [A], 6144/6600 = 256/275, which is approximately 0.93: the
    binary64 result is 0.9309090909090909. *)
Theorem iou_nested_value :
  inter_area (Box 47 35 147 101) (Box 49 36 145 100) = box_area (Box 49 36 145 100) /\
  iou_denominator (Box 47 35 147 101) (Box 49 36 145 100) = box_area (Box 47 35 147 101) /\
  (exists v : Q,
     iou (Box 47 35 147 101) (Box 49 36 145 100) = Ok v /\
     (v == 256 # 275)%Q /\ approximately v (93 # 100)) /\
  iou (F := float) (Box 47 35 147 101) (Box 49 36 145 100)
    = Ok 0x1.dca01dca01dcap-1%float.
Proof.
  split; [reflexivity|]. split; [reflexivity|]. split.
  - exists (6144 # 6600)%Q. split; [reflexivity|].
    split; [reflexivity|].
    unfold approximately. split; [apply Qle_bool_imp_le | apply Qlt_alt];
      reflexivity.
  - vm_compute. reflexivity.
Qed.

(** C4 as stated fails: the value [iou] returns on these two boxes is not
    approximately 0.89, in exact or in binary64 arithmetic. *)
Lemma iou_nested_not_089 :
  ~ (exists v : Q,
       iou (Box 47 35 147 101) (Box 49 36 145 100) = Ok v /\
       approximately v (89 # 100)) /\
  (exists f : float,
     iou (Box 47 35 147 101) (Box 49 36 145 100) = Ok f /\
     PrimFloat.ltb f (PrimFloat.div (float_of_Z 895) (float_of_Z 1000)) = false).
Proof.
  split.
  - intros [v [Hv [_ Hlt]]].
    assert (E : v = (6144 # 6600)%Q) by (vm_compute in Hv; congruence).
    subst v. apply Qlt_alt in Hlt. vm_compute in Hlt. discriminate.
  - eexists. split; [vm_compute; reflexivity|]. vm_compute. reflexivity.
Qed.

(** C5.  For boxes with ordered corners, the denominator
    [boxA_area + boxB_area - inter_area] of [iou] is zero if and only if
    both boxes have zero area.  Hence the division returns whenever one of
    the boxes has positive area, and [iou] raises [ZeroDivisionError]
    exactly on two boxes of zero area. *)
Theorem iou_zero_denominator (A B : box) :
  ordered A -> ordered B ->
  (iou_denominator A B = 0 <-> box_area A = 0 /\ box_area B = 0) /\
  (0 < box_area A \/ 0 < box_area B -> returned (iou (F := Q) A B) = true) /\
  (iou (F := Q) A B = Raise ZeroDivisionError <->
   box_area A = 0 /\ box_area B = 0).
Proof.
  intros HA HB.
  pose proof (iou_denominator_zero A B HA HB) as Hz.
  split; [exact Hz|]. split.
  - intros Hpos. apply iou_returns_iff. intros Hd.
    apply Hz in Hd. lia.
  - rewrite iou_raises_iff. exact Hz.
Qed.

Lemma iou_zero_denominator_witness :
  (iou_denominator (Box 10 20 10 60) (Box 47 35 147 101) = 0 <->
   box_area (Box 10 20 10 60) = 0 /\ box_area (Box 47 35 147 101) = 0) /\
  (0 < box_area (Box 10 20 10 60) \/ 0 < box_area (Box 47 35 147 101) ->
   returned (iou (F := Q) (Box 10 20 10 60) (Box 47 35 147 101)) = true) /\
  (iou (F := Q) (Box 10 20 10 60) (Box 47 35 147 101) = Raise ZeroDivisionError <->
   box_area (Box 10 20 10 60) = 0 /\ box_area (Box 47 35 147 101) = 0).
Proof.
  apply (iou_zero_denominator (Box 10 20 10 60) (Box 47 35 147 101)).
  - unfold ordered; simpl; lia.
  - unfold ordered; simpl; lia.
Defined.

(** ** The box transform in exact arithmetic *)

Lemma Qtrunc_Proper : Proper (Qeq ==> eq) Qtrunc.
Proof.
  intros [n d] [n' d'] E. unfold Qeq in E. simpl in E. unfold Qtrunc. simpl.
  rewrite <- (Z.quot_mul_cancel_r n (Zpos d) (Zpos d')) by discriminate.
  rewrite <- (Z.quot_mul_cancel_r n' (Zpos d') (Zpos d)) by discriminate.
  rewrite E, (Z.mul_comm (Zpos d) (Zpos d')). reflexivity.
Qed.

#[export] Existing Instance Qtrunc_Proper.

Lemma Qtrunc_inject_Z (n : Z) : Qtrunc (inject_Z n) = n.
Proof. unfold Qtrunc, inject_Z. simpl. apply Z.quot_1_r. Qed.

Lemma pymax_zero (v : Q) : (0 <= v)%Q -> (pymax (F := Q) 0 v == v)%Q.
Proof.
  intros Hv. unfold pymax. simpl.
  destruct (Qle_bool v 0) eqn:E; simpl; [|reflexivity].
  apply Qle_bool_iff in E. apply Qle_antisym; assumption.
Qed.

Lemma pymin_bound (r v : Q) : (v <= r)%Q -> (pymin (F := Q) r v == v)%Q.
Proof.
  intros Hv. unfold pymin. simpl.
  destruct (Qle_bool r v) eqn:E; simpl; [|reflexivity].
  apply Qle_bool_iff in E. apply Qle_antisym; assumption.
Qed.


Lemma scaled_nonneg (c n : Z) : 0 <= c -> 0 < n -> (0 <= scaled c n)%Q.
Proof.
  intros Hc Hn. unfold scaled.
  apply Qle_shift_div_l.
  - change 0%Q with (inject_Z 0). rewrite <- Zlt_Qlt. exact Hn.
  - rewrite Qmult_0_l. change 0%Q with (inject_Z 0).
    rewrite <- Zle_Qle. unfold img_resize. lia.
Qed.

Lemma scaled_le_resize (c n : Z) :
  c <= n -> 0 < n -> (scaled c n <= inject_Z img_resize)%Q.
Proof.
  intros Hc Hn. unfold scaled.
  apply Qle_shift_div_r.
  - change 0%Q with (inject_Z 0). rewrite <- Zlt_Qlt. exact Hn.
  - rewrite <- inject_Z_mult, <- Zle_Qle. unfold img_resize. lia.
Qed.

Lemma scaled_back (c n : Z) :
  n <> 0 -> (scaled c n * inject_Z n / inject_Z img_resize == inject_Z c)%Q.
Proof.
  intros Hn. unfold scaled. rewrite inject_Z_mult.
  field. split; apply inject_Z_nonzero; [exact Hn | unfold img_resize; discriminate].
Qed.

Lemma tensorize_annotation_exact (a : annotation) (idx : Z) :
  labels2idx (ann_class a) = Ok idx ->
  fst (ann_size a) <> 0 -> snd (ann_size a) <> 0 ->
  tensorize_annotation (F := Q) a =
  Ok (one_hot idx,
      CenterBox
        ((scaled (x_max (ann_bbox a)) (fst (ann_size a))
          + scaled (x_min (ann_bbox a)) (fst (ann_size a))) / inject_Z 2)%Q
        ((scaled (y_max (ann_bbox a)) (snd (ann_size a))
          + scaled (y_min (ann_bbox a)) (snd (ann_size a))) / inject_Z 2)%Q
        (scaled (x_max (ann_bbox a)) (fst (ann_size a))
         - scaled (x_min (ann_bbox a)) (fst (ann_size a)))%Q
        (scaled (y_max (ann_bbox a)) (snd (ann_size a))
         - scaled (y_min (ann_bbox a)) (snd (ann_size a)))%Q).
Proof.
  intros Hidx HW HH. unfold tensorize_annotation.
  rewrite Hidx. cbn [Py.bind].
  rewrite !exact_int_truediv by assumption. cbn [Py.bind].
  rewrite exact_of_int. cbn [Py.bind].
  rewrite !exact_fdiv by (apply inject_Z_nonzero; discriminate).
  reflexivity.
Qed.

Lemma small_box_exact (b : center_box Q) :
  small_box b =
  Ok (pymax (inject_Z 0) (c_x b - c_w b / inject_Z 2)%Q,
      pymax (inject_Z 0) (c_y b - c_h b / inject_Z 2)%Q,
      pymin (inject_Z img_resize) (c_x b + c_w b / inject_Z 2)%Q,
      pymin (inject_Z img_resize) (c_y b + c_h b / inject_Z 2)%Q).
Proof.
  unfold small_box. rewrite !exact_of_int. cbn [Py.bind].
  rewrite !exact_fdiv by (apply inject_Z_nonzero; discriminate).
  reflexivity.
Qed.

Lemma rescale_exact (v : Q) (n : Z) :
  rescale v n = Ok (Qtrunc (v * inject_Z n / inject_Z img_resize)).
Proof.
  unfold rescale. rewrite !exact_of_int. cbn [Py.bind].
  rewrite exact_fdiv by (apply inject_Z_nonzero; unfold img_resize; discriminate).
  reflexivity.
Qed.

Lemma interpret_output_exact (cls : list Q) (b : center_box Q) (img_size : Z * Z)
      (i : Z) (name : string) :
  argmax cls = Ok i -> idx2labels i = Ok name ->
  interpret_output cls b img_size =
  Ok (Output name (nth (Z.to_nat i) cls (inject_Z 0))
        (Box
           (Qtrunc (pymax (inject_Z 0) (c_x b - c_w b / inject_Z 2)%Q
                    * inject_Z (fst img_size) / inject_Z img_resize))
           (Qtrunc (pymax (inject_Z 0) (c_y b - c_h b / inject_Z 2)%Q
                    * inject_Z (snd img_size) / inject_Z img_resize))
           (Qtrunc (pymin (inject_Z img_resize) (c_x b + c_w b / inject_Z 2)%Q
                    * inject_Z (fst img_size) / inject_Z img_resize))
           (Qtrunc (pymin (inject_Z img_resize) (c_y b + c_h b / inject_Z 2)%Q
                    * inject_Z (snd img_size) / inject_Z img_resize)))).
Proof.
  intros Hi Hname. unfold interpret_output.
  rewrite Hi. cbn [Py.bind]. rewrite Hname. cbn [Py.bind].
  rewrite small_box_exact. cbn [Py.bind].
  rewrite !rescale_exact. reflexivity.
Qed.

Lemma labels2idx_inv (s : string) (idx : Z) :
  labels2idx s = Ok idx ->
  idx2labels idx = Ok s /\ argmax (one_hot (F := Q) idx) = Ok idx.
Proof.
  unfold labels2idx, filters, index_from.
  repeat match goal with
         | |- context [String.eqb ?x s] =>
             destruct (String.eqb_spec x s) as [<- | _]
         end;
    intros E; inversion E; subst; split; reflexivity.
Qed.

Lemma labels2idx_total (s : string) :
  In s filters -> exists idx, labels2idx s = Ok idx.
Proof.
  unfold labels2idx, filters, index_from. intros Hin.
  repeat match goal with
         | |- context [String.eqb ?x s] =>
             destruct (String.eqb_spec x s) as [_ | ?]
         end;
    try (eexists; reflexivity).
  simpl in Hin. intuition congruence.
Qed.

Lemma tensorize_all_rows (F : Type) (N : Numeric F)
      (annotations : list annotation) (rows : list (list F * center_box F)) :
  Forall2 (fun a r => tensorize_annotation a = Ok r) annotations rows ->
  tensorize_all annotations = Ok (map fst rows, map snd rows).
Proof.
  induction 1 as [| a [cls b] l rows' Ha _ IH]; [reflexivity|].
  simpl. rewrite Ha. cbn [Py.bind]. rewrite IH. reflexivity.
Qed.

(** One annotation, in exact arithmetic: its tensors, interpreted at its
    image size, give back its class and its box. *)
Lemma interpret_tensorized (a : annotation) :
  within_image a ->
  exists cls b,
    tensorize_annotation (F := Q) a = Ok (cls, b) /\
    interpret_output cls b (ann_size a) =
    Ok (Output (ann_class a) (inject_Z 1) (ann_bbox a)).
Proof.
  intros (Hin & HW & HH & Hx0 & Hx1 & Hy0 & Hy1).
  destruct (labels2idx_total _ Hin) as [idx Hidx].
  destruct (labels2idx_inv _ _ Hidx) as [Hname Harg].
  eexists. eexists. split.
  - apply tensorize_annotation_exact; [exact Hidx | lia | lia].
  - rewrite (interpret_output_exact _ _ _ idx (ann_class a) Harg Hname).
    cbn [c_x c_y c_w c_h].
    set (W := fst (ann_size a)) in *. set (H := snd (ann_size a)) in *.
    destruct (ann_bbox a) as [x0 y0 x1 y1]. cbn [x_min y_min x_max y_max] in *.
    assert (E0 : ((scaled x1 W + scaled x0 W) / inject_Z 2
                  - (scaled x1 W - scaled x0 W) / inject_Z 2 == scaled x0 W)%Q)
      by field.
    assert (E1 : ((scaled y1 H + scaled y0 H) / inject_Z 2
                  - (scaled y1 H - scaled y0 H) / inject_Z 2 == scaled y0 H)%Q)
      by field.
    assert (E2 : ((scaled x1 W + scaled x0 W) / inject_Z 2
                  + (scaled x1 W - scaled x0 W) / inject_Z 2 == scaled x1 W)%Q)
      by field.
    assert (E3 : ((scaled y1 H + scaled y0 H) / inject_Z 2
                  + (scaled y1 H - scaled y0 H) / inject_Z 2 == scaled y1 H)%Q)
      by field.
    assert (P0 : Qtrunc (pymax (inject_Z 0)
                           ((scaled x1 W + scaled x0 W) / inject_Z 2
                            - (scaled x1 W - scaled x0 W) / inject_Z 2)%Q
                         * inject_Z W / inject_Z img_resize) = x0).
    { rewrite pymax_zero by (rewrite E0; apply scaled_nonneg; lia).
      rewrite E0, scaled_back by lia. apply Qtrunc_inject_Z. }
    assert (P1 : Qtrunc (pymax (inject_Z 0)
                           ((scaled y1 H + scaled y0 H) / inject_Z 2
                            - (scaled y1 H - scaled y0 H) / inject_Z 2)%Q
                         * inject_Z H / inject_Z img_resize) = y0).
    { rewrite pymax_zero by (rewrite E1; apply scaled_nonneg; lia).
      rewrite E1, scaled_back by lia. apply Qtrunc_inject_Z. }
    assert (P2 : Qtrunc (pymin (inject_Z img_resize)
                           ((scaled x1 W + scaled x0 W) / inject_Z 2
                            + (scaled x1 W - scaled x0 W) / inject_Z 2)%Q
                         * inject_Z W / inject_Z img_resize) = x1).
    { rewrite pymin_bound by (rewrite E2; apply scaled_le_resize; lia).
      rewrite E2, scaled_back by lia. apply Qtrunc_inject_Z. }
    assert (P3 : Qtrunc (pymin (inject_Z img_resize)
                           ((scaled y1 H + scaled y0 H) / inject_Z 2
                            + (scaled y1 H - scaled y0 H) / inject_Z 2)%Q
                         * inject_Z H / inject_Z img_resize) = y1).
    { rewrite pymin_bound by (rewrite E3; apply scaled_le_resize; lia).
      rewrite E3, scaled_back by lia. apply Qtrunc_inject_Z. }
    rewrite P0, P1, P2, P3.
    f_equal. f_equal.
    clear - Hidx. revert Hidx.
    unfold labels2idx, filters, index_from.
    repeat match goal with
           | |- context [String.eqb ?x ?s] =>
               destruct (String.eqb_spec x s) as [_ | _]
           end;
      intros E; inversion E; reflexivity.
Qed.

Lemma Forall2_nth_error {A B : Type} (P : A -> B -> Prop)
      (l : list A) (l' : list B) (i : nat) (a : A) :
  Forall2 P l l' -> nth_error l i = Some a ->
  exists b, nth_error l' i = Some b /\ P a b.
Proof.
  intros HF. revert i. induction HF as [| x y l l' Hxy _ IH]; intros i Hi.
  - destruct i; discriminate.
  - destruct i as [| i]; simpl in Hi.
    + inversion Hi; subst. exists y. split; [reflexivity | exact Hxy].
    + apply IH. exact Hi.
Qed.

Lemma tensorized_rows (annotations : list annotation) :
  Forall within_image annotations ->
  exists rows : list (list Q * center_box Q),
    Forall2 (fun a r =>
               tensorize_annotation a = Ok r /\
               interpret_output (fst r) (snd r) (ann_size a) =
               Ok (Output (ann_class a) (inject_Z 1) (ann_bbox a)))
            annotations rows.
Proof.
  induction 1 as [| a l Ha _ [rows IH]].
  - exists []. constructor.
  - destruct (interpret_tensorized a Ha) as (cls & b & Ht & Hi).
    exists ((cls, b) :: rows). constructor; [split; assumption | exact IH].
Qed.

(** The sanity check of the lab in exact arithmetic: for annotations of a
    known class whose box lies within its image of positive size, the
    tensors of any annotation, interpreted at the annotation's image size,
    give back its class and its box.  The two functions are written as
    inverses of each other. *)
Lemma sanity_check_exact
      (annotations : list annotation) (img_idx : nat) (a : annotation) :
  Forall within_image annotations ->
  nth_error annotations img_idx = Some a ->
  sanity_check (F := Q) annotations img_idx =
  Ok (Output (ann_class a) (inject_Z 1) (ann_bbox a)).
Proof.
  intros Hall Hnth.
  destruct (tensorized_rows annotations Hall) as [rows Hrows].
  assert (Hten : tensorize_all annotations = Ok (map fst rows, map snd rows)).
  { apply tensorize_all_rows.
    eapply Forall2_impl; [|exact Hrows]. intros x r [Hx _]. exact Hx. }
  destruct (Forall2_nth_error _ _ _ _ _ Hrows Hnth) as ([cls b] & Hr & _ & Hint).
  unfold sanity_check, tensorize_ground_truth.
  rewrite Hten. cbn [Py.bind].
  destruct rows as [| r0 rows']; [destruct img_idx; discriminate|].
  cbn [map Py.bind].
  change (fst r0 :: map fst rows') with (map fst (r0 :: rows')).
  change (snd r0 :: map snd rows') with (map snd (r0 :: rows')).
  rewrite !nth_error_map, Hr, Hnth. simpl option_map.
  exact Hint.
Qed.

(** C6 fails on the code.  [interpret_output] ends each coordinate with
    [int(.)], which truncates.  In binary64 the quotient that stands for
    the original coordinate can be rounded to just below it, and the
    coordinate then comes back one pixel lower.  On the list of the two
    annotations below, both with ordered corners within their images, the
    sanity check returns [[46,34,147,100]] for the box [[47,35,147,101]] of
    a 500 x 333 image and [[1,123,353,235]] for the box [[1,124,353,235]]
    of a 353 x 500 image, where exact arithmetic gives back both boxes
    unchanged. *)
Theorem sanity_check_off_by_one :
  within_image (Annotation (500, 333) "000001.jpg" "dog" (Box 47 35 147 101)) /\
  ordered (Box 47 35 147 101) /\
  within_image (Annotation (353, 500) "000002.jpg" "car" (Box 1 124 353 235)) /\
  ordered (Box 1 124 353 235) /\
  sanity_check (F := float)
    [Annotation (500, 333) "000001.jpg" "dog" (Box 47 35 147 101);
     Annotation (353, 500) "000002.jpg" "car" (Box 1 124 353 235)] 0 =
  Ok (Output "dog" 1%float (Box 46 34 147 100)) /\
  sanity_check (F := float)
    [Annotation (500, 333) "000001.jpg" "dog" (Box 47 35 147 101);
     Annotation (353, 500) "000002.jpg" "car" (Box 1 124 353 235)] 1 =
  Ok (Output "car" 1%float (Box 1 123 353 235)) /\
  sanity_check (F := Q)
    [Annotation (500, 333) "000001.jpg" "dog" (Box 47 35 147 101);
     Annotation (353, 500) "000002.jpg" "car" (Box 1 124 353 235)] 0 =
  Ok (Output "dog" (inject_Z 1) (Box 47 35 147 101)) /\
  sanity_check (F := Q)
    [Annotation (500, 333) "000001.jpg" "dog" (Box 47 35 147 101);
     Annotation (353, 500) "000002.jpg" "car" (Box 1 124 353 235)] 1 =
  Ok (Output "car" (inject_Z 1) (Box 1 124 353 235)).
Proof.
  assert (H0 : within_image
                 (Annotation (500, 333) "000001.jpg" "dog" (Box 47 35 147 101)))
    by (unfold within_image; simpl; intuition lia).
  assert (H1 : within_image
                 (Annotation (353, 500) "000002.jpg" "car" (Box 1 124 353 235)))
    by (unfold within_image; simpl; intuition lia).
  split; [exact H0|].
  split; [unfold ordered; simpl; lia|].
  split; [exact H1|].
  split; [unfold ordered; simpl; lia|].
  split; [vm_compute; reflexivity|].
  split; [vm_compute; reflexivity|].
  assert (Hall : Forall within_image
                   [Annotation (500, 333) "000001.jpg" "dog" (Box 47 35 147 101);
                    Annotation (353, 500) "000002.jpg" "car" (Box 1 124 353 235)])
    by (constructor; [exact H0 | constructor; [exact H1 | constructor]]).
  split.
  - apply (sanity_check_exact _ 0%nat
             (Annotation (500, 333) "000001.jpg" "dog" (Box 47 35 147 101)) Hall).
    reflexivity.
  - apply (sanity_check_exact _ 1%nat
             (Annotation (353, 500) "000002.jpg" "car" (Box 1 124 353 235)) Hall).
    reflexivity.
Qed.

(** ** Each axis with its own factor *)









(** ** Accuracy *)

Lemma filter_valid_le (threshold : Q) (pairs : list (output Q * annotation)) :
  (List.length (filter (valid_match threshold) pairs)
   <= List.length (filter class_match pairs))%nat.
Proof.
  induction pairs as [| p l IH]; [apply le_n|].
  simpl. unfold valid_match at 1.
  destruct (class_match p); simpl.
  - destruct (iou (out_bbox (fst p)) (ann_bbox (snd p))) as [v | e];
      [destruct (negb (Qle_bool v threshold))|]; simpl; lia.
  - exact IH.
Qed.

Lemma accuracy_loop_sums (threshold : Q) (pairs : list (output Q * annotation)) :
  iou_defined pairs ->
  forall acc : sums Q,
  exists s : sums Q,
    accuracy_loop threshold acc pairs = Ok s /\
    sum_valid s
    = sum_valid acc + Z.of_nat (List.length (filter (valid_match threshold) pairs)) /\
    sum_accurate s
    = sum_accurate acc + Z.of_nat (List.length (filter class_match pairs)) /\
    (sum_iou s == sum_iou acc + iou_total pairs)%Q.
Proof.
  induction 1 as [| [pred tr] l Hp _ IH]; intros acc.
  - exists acc. simpl. repeat split; try lia. ring.
  - simpl accuracy_loop. unfold accuracy_step.
    pose proof (iou_exact (out_bbox pred) (ann_bbox tr)) as Hiou.
    simpl fst in Hp; simpl snd in Hp.
    apply Z.eqb_neq in Hp. rewrite Hp in Hiou.
    rewrite Hiou. cbn [Py.bind].
    match goal with
    | |- context [accuracy_loop threshold ?acc' l] =>
        destruct (IH acc') as (s & Hs & Hv & Ha & Hi)
    end.
    exists s. split; [exact Hs|].
    cbn [sum_valid sum_accurate sum_iou] in Hv, Ha, Hi.
    assert (Hvm : valid_match threshold (pred, tr)
                  = String.eqb (out_class pred) (ann_class tr)
                    && fltb threshold
                         (inject_Z (inter_area (out_bbox pred) (ann_bbox tr))
                          / inject_Z (iou_denominator (out_bbox pred) (ann_bbox tr)))%Q)
      by (unfold valid_match, class_match; cbn [fst snd]; rewrite Hiou; reflexivity).
    assert (Hcm : class_match (pred, tr)
                  = String.eqb (out_class pred) (ann_class tr)) by reflexivity.
    assert (Hpi : pair_iou (pred, tr)
                  = (inject_Z (inter_area (out_bbox pred) (ann_bbox tr))
                     / inject_Z (iou_denominator (out_bbox pred) (ann_bbox tr)))%Q)
      by (unfold pair_iou; cbn [fst snd]; rewrite Hiou; reflexivity).
    simpl filter. simpl iou_total. rewrite Hvm, Hcm, Hpi.
    split; [|split].
    + rewrite Hv.
      destruct (String.eqb (out_class pred) (ann_class tr));
        [destruct (fltb threshold _)|]; cbn [andb List.length]; lia.
    + rewrite Ha.
      destruct (String.eqb (out_class pred) (ann_class tr));
        cbn [List.length]; lia.
    + rewrite Hi. simpl fadd. ring.
Qed.

(** C10 (as amended).  For every non-empty list of predictions, every
    list of ground truths of the same length and every threshold, provided
    no pair makes [iou] divide by zero, [accuracy_and_iou] returns a triple
    (class accuracy, mean IoU, global accuracy): the class accuracy is the
    fraction of pairs with matching class, the mean IoU the sum of the IoUs
    over the number of pairs, the global accuracy the fraction of pairs
    with matching class and an IoU above the threshold; and the global
    accuracy is at most the class accuracy. *)
Theorem accuracy_and_iou_ordered
        (preds : list (output Q)) (trues : list annotation) (threshold : Q) :
  preds <> [] ->
  List.length preds = List.length trues ->
  iou_defined (combine preds trues) ->
  exists a i v : Q,
    accuracy_and_iou preds trues threshold = Ok (a, i, v) /\
    (a == count class_match (combine preds trues)
          / inject_Z (Z.of_nat (List.length preds)))%Q /\
    (i == iou_total (combine preds trues)
          / inject_Z (Z.of_nat (List.length preds)))%Q /\
    (v == count (valid_match threshold) (combine preds trues)
          / inject_Z (Z.of_nat (List.length preds)))%Q /\
    (v <= a)%Q.
Proof.
  intros Hne Hlen Hdef.
  assert (Hnum : Z.of_nat (List.length preds) <> 0)
    by (destruct preds; [contradiction | simpl; lia]).
  destruct (accuracy_loop_sums threshold _ Hdef (Sums 0 0 (inject_Z 0)))
    as (s & Hs & Hv & Ha & Hi).
  cbn [sum_valid sum_accurate sum_iou] in Hv, Ha, Hi.
  unfold accuracy_and_iou. cbv zeta.
  change (of_Z 0) with (inject_Z 0). rewrite Hs. cbn [Py.bind].
  rewrite !exact_int_truediv by exact Hnum. cbn [Py.bind].
  rewrite exact_of_int. cbn [Py.bind].
  rewrite exact_fdiv by (apply inject_Z_nonzero, Hnum). cbn [Py.bind].
  do 3 eexists. split; [reflexivity|].
  rewrite Hv, Ha, Hi. unfold count. simpl Z.add.
  split; [reflexivity|]. split.
  - change (inject_Z 0) with 0%Q. rewrite Qplus_0_l. reflexivity.
  - split; [reflexivity|].
    unfold Qdiv. apply Qmult_le_compat_r.
    + rewrite <- Zle_Qle. apply inj_le, filter_valid_le.
    + apply Qinv_le_0_compat. change 0%Q with (inject_Z 0).
      rewrite <- Zle_Qle. lia.
Qed.

Lemma accuracy_and_iou_ordered_witness :
  exists a i v : Q,
    accuracy_and_iou
      [Output "dog" (9 # 10) (Box 46 34 147 100); Output "cat" (1 # 2) (Box 0 0 10 10)]
      [Annotation (500, 333) "000001.jpg" "dog" (Box 47 35 147 101);
       Annotation (500, 333) "000002.jpg" "car" (Box 5 5 20 20)]
      (1 # 2) = Ok (a, i, v) /\
    (v <= a)%Q.
Proof.
  destruct (accuracy_and_iou_ordered
              [Output "dog" (9 # 10) (Box 46 34 147 100); Output "cat" (1 # 2) (Box 0 0 10 10)]
              [Annotation (500, 333) "000001.jpg" "dog" (Box 47 35 147 101);
               Annotation (500, 333) "000002.jpg" "car" (Box 5 5 20 20)]
              (1 # 2))
    as (a & i & v & Hr & _ & _ & _ & Hle).
  - discriminate.
  - reflexivity.
  - repeat constructor; vm_compute; discriminate.
  - exists a, i, v. split; [exact Hr | exact Hle].
Defined.

(** C10 as stated fails on a pair of zero-area boxes: the call raises
    [ZeroDivisionError] instead of returning a triple, in exact and in
    binary64 arithmetic. *)
Lemma accuracy_and_iou_raises :
  accuracy_and_iou (F := Q)
    [Output "dog" 1%Q (Box 0 0 0 0)]
    [Annotation (500, 333) "000001.jpg" "dog" (Box 10 20 10 60)]
    (1 # 2) = Raise ZeroDivisionError /\
  accuracy_and_iou (F := float)
    [Output "dog" 1%float (Box 0 0 0 0)]
    [Annotation (500, 333) "000001.jpg" "dog" (Box 10 20 10 60)]
    0.5%float = Raise ZeroDivisionError.
Proof. split; vm_compute; reflexivity. Qed.

(** ** Webcam snapshot *)

Section CameraFacts.

Import Camera.

Variable image : Type.
Variable read_outcome : nat -> result (bool * value image).
Variable cvtColor : value image -> result (value image).
Variable imread : string -> result (value image).

Lemma read_loop_returns (n : nat) :
  forall (cur : bool * value image) (w : world),
    (forall k, (k < n)%nat -> returned (read_outcome (frames_read w + k)) = true) ->
    exists r,
      read_loop image read_outcome n cur w
      = (Ok r, World (camera_held w) (frames_read w + n) (printed w)) /\
      (n = O -> r = cur) /\
      (forall m, n = S m -> read_outcome (frames_read w + m) = Ok r).
Proof.
  induction n as [| n IH]; intros cur w Hreads.
  - exists cur. simpl. unfold ret. rewrite Nat.add_0_r. destruct w.
    split; [reflexivity|]. split; [reflexivity | discriminate].
  - simpl. unfold seq_action, camera_read.
    pose proof (Hreads O (Nat.lt_0_succ n)) as H0. rewrite Nat.add_0_r in H0.
    destruct (read_outcome (frames_read w)) as [r0 | e] eqn:E0; [|discriminate].
    destruct (IH r0 (World (camera_held w) (S (frames_read w)) (printed w)))
      as (r & Hr & Hz & Hs).
    { intros k Hk. cbn [frames_read].
      replace (S (frames_read w) + k)%nat with (frames_read w + S k)%nat by lia.
      apply Hreads. lia. }
    exists r. cbn [frames_read camera_held printed] in Hr, Hs.
    split; [|split].
    + rewrite Hr. f_equal. f_equal. lia.
    + discriminate.
    + intros m Hm. injection Hm as ->.
      destruct m as [| m'].
      * rewrite (Hz eq_refl), Nat.add_0_r. exact E0.
      * replace (frames_read w + S m')%nat with (S (frames_read w) + m')%nat by lia.
        apply Hs. reflexivity.
Qed.

(** C9.  [camera_grab] releases the camera on every execution path: in
    whatever world it starts, whatever the reads, the colour conversion and
    the file read do (return or raise), the camera is not held when the
    call ends.  And when the ten reads return, the last one with a false
    [snapshot_ok], and a non-empty [fallback_filename] is given whose file
    [imread] reads, the call returns the image of that file. *)
Theorem camera_grab_contract
        (camera_id : Z) (fallback_filename : option string) (w : world) :
  camera_held (snd (camera_grab image read_outcome cvtColor imread
                                camera_id fallback_filename w)) = false /\
  (forall (f : string) (frame img : value image),
      fallback_filename = Some f -> f <> EmptyString ->
      (forall k, (k < 9)%nat -> returned (read_outcome (frames_read w + k)) = true) ->
      read_outcome (frames_read w + 9) = Ok (false, frame) ->
      imread f = Ok img ->
      fst (camera_grab image read_outcome cvtColor imread
                       camera_id fallback_filename w) = Ok img).
Proof.
  split.
  - unfold camera_grab, seq_action, video_capture, try_finally.
    destruct (grab_body image read_outcome cvtColor imread fallback_filename _)
      as [r w'].
    reflexivity.
  - intros f frame img Hf Hne Hreads Hlast Hread.
    unfold camera_grab, seq_action at 1, video_capture, try_finally.
    set (w0 := World true (frames_read w) (printed w)).
    destruct (read_loop_returns 10 (false, PyNone) w0) as (r & Hr & _ & Hs).
    { intros k Hk. cbn [frames_read w0].
      destruct (Nat.eq_dec k 9) as [-> | Hk9].
      - rewrite Hlast. reflexivity.
      - apply Hreads. lia. }
    specialize (Hs 9%nat eq_refl). cbn [frames_read w0] in Hs.
    rewrite Hlast in Hs. injection Hs as <-.
    unfold grab_body, seq_action. rewrite Hr.
    unfold print, truthy, lift. subst fallback_filename.
    destruct (String.eqb_spec f EmptyString) as [-> | _]; [contradiction|].
    cbn [negb camera_release]. rewrite Hread. reflexivity.
Qed.

End CameraFacts.

Lemma camera_grab_contract_witness :
  Camera.camera_held
    (snd (Camera.camera_grab nat
            (fun k => if (k <? 4)%nat then Ok (true, Camera.Img 1%nat)
                      else Ok (false, Camera.PyNone))
            (fun v => Ok v)
            (fun _ => Ok (Camera.Img 7%nat))
            0 (Some "laptop.jpeg"%string) (Camera.World false 0 []))) = false /\
  fst (Camera.camera_grab nat
         (fun k => if (k <? 4)%nat then Ok (true, Camera.Img 1%nat)
                   else Ok (false, Camera.PyNone))
         (fun v => Ok v)
         (fun _ => Ok (Camera.Img 7%nat))
         0 (Some "laptop.jpeg"%string) (Camera.World false 0 []))
  = Ok (Camera.Img 7%nat).
Proof.
  destruct (camera_grab_contract nat
    (fun k => if (k <? 4)%nat then Ok (true, Camera.Img 1%nat)
              else Ok (false, Camera.PyNone))
    (fun v => Ok v)
    (fun _ => Ok (Camera.Img 7%nat))
    0 (Some "laptop.jpeg"%string) (Camera.World false 0 [])) as [Hrel Hfall].
  split; [exact Hrel|].
  apply (Hfall "laptop.jpeg"%string Camera.PyNone (Camera.Img 7%nat)).
  - reflexivity.
  - discriminate.
  - intros k _. cbn [Camera.frames_read]. destruct (0 + k <? 4)%nat; reflexivity.
  - reflexivity.
  - reflexivity.
Defined.

(** An exception raised by a read leaves [camera_grab] with the camera
    released, the exception propagating to the caller. *)
Example camera_grab_read_raises :
  Camera.camera_grab nat
    (fun k => if (k <? 4)%nat then Ok (true, Camera.Img 1%nat) else Raise CvError)
    (fun v => Ok v)
    (fun _ => Ok (Camera.Img 7%nat))
    0 (Some "laptop.jpeg"%string) (Camera.World false 0 [])
  = (Raise CvError, Camera.World false 5 []).
Proof. reflexivity. Qed.

(** ** Text generation *)

(** C8 fails on the code: [generate_text] is the placeholder of an exercise.
    Whatever the model, the tokenizer, the seed text and the length, it
    returns [None] and does not query the model once, while one call of
    [get_predicted_word] queries it exactly once. *)
Theorem generate_text_placeholder
        (VOCAB_SIZE : Z) (model tokenizer sequence : Type)
        (predict : model -> sequence -> list Q)
        (m : model) (t : tokenizer) (seed_text : string) (max_sequence_len : Z) :
  TextGen.generate_text model tokenizer sequence m t seed_text max_sequence_len
  = (None, []) /\
  forall (s : sequence) (u : Q),
    snd (TextGen.get_predicted_word VOCAB_SIZE model sequence predict m s u) = [s].
Proof. split; [reflexivity | intros s u; reflexivity]. Qed.

(** * Further properties *)

(** ** Intersection over Union: range, extremes and invariance *)

Lemma inter_area_pos_proper (boxA boxB : box) :
  0 < inter_area boxA boxB -> proper boxA /\ proper boxB /\ ~ disjoint boxA boxB.
Proof.
  unfold inter_area, proper, disjoint. cbv zeta. intros Hpos.
  assert (Hx : 0 < Z.min (x_max boxA) (x_max boxB) - Z.max (x_min boxA) (x_min boxB)).
  { destruct (Z_lt_le_dec 0 (Z.min (x_max boxA) (x_max boxB)
                             - Z.max (x_min boxA) (x_min boxB))) as [Hlt | Hle];
      [exact Hlt|].
    rewrite (Z.max_r _ 0) in Hpos by exact Hle. simpl in Hpos. lia. }
  assert (Hy : 0 < Z.min (y_max boxA) (y_max boxB) - Z.max (y_min boxA) (y_min boxB)).
  { destruct (Z_lt_le_dec 0 (Z.min (y_max boxA) (y_max boxB)
                             - Z.max (y_min boxA) (y_min boxB))) as [Hlt | Hle];
      [exact Hlt|].
    rewrite (Z.max_r (_ - Z.max (y_min boxA) _) 0) in Hpos by exact Hle.
    rewrite Z.mul_0_r in Hpos. lia. }
  repeat split; lia.
Qed.

Lemma inter_area_overlap (boxA boxB : box) :
  ~ disjoint boxA boxB -> 0 < inter_area boxA boxB.
Proof.
  unfold inter_area, disjoint. cbv zeta. intros Hnd.
  apply Z.mul_pos_pos; lia.
Qed.

Lemma proper_ordered (b : box) : proper b -> ordered b.
Proof. unfold proper, ordered. lia. Qed.

Lemma iou_denominator_bound (boxA boxB : box) :
  0 < inter_area boxA boxB ->
  inter_area boxA boxB <= iou_denominator boxA boxB.
Proof.
  intros Hpos.
  destruct (inter_area_pos_proper _ _ Hpos) as (HA & HB & _).
  pose proof (inter_area_le_l boxA boxB (proper_ordered _ HA)).
  pose proof (inter_area_le_r boxA boxB (proper_ordered _ HB)).
  unfold iou_denominator. lia.
Qed.

Lemma Qdiv_inject_range (n d : Z) :
  0 <= n <= d -> 0 < d -> (0 <= inject_Z n / inject_Z d <= 1)%Q.
Proof.
  intros [Hn Hnd] Hd.
  assert (Hdq : (0 < inject_Z d)%Q)
    by (change 0%Q with (inject_Z 0); rewrite <- Zlt_Qlt; exact Hd).
  split.
  - apply Qle_shift_div_l; [exact Hdq|].
    rewrite Qmult_0_l. change 0%Q with (inject_Z 0). rewrite <- Zle_Qle. exact Hn.
  - apply Qle_shift_div_r; [exact Hdq|].
    rewrite Qmult_1_l. rewrite <- Zle_Qle. exact Hnd.
Qed.

(** X1.  Whatever the two boxes, ordered or not, [iou] either raises
    [ZeroDivisionError] or returns a number between 0 and 1. *)
Theorem iou_range (A B : box) :
  match iou (F := Q) A B with
  | Ok v => (0 <= v <= 1)%Q
  | Raise e => e = ZeroDivisionError
  end.
Proof.
  rewrite iou_exact.
  destruct (iou_denominator A B =? 0) eqn:E; [reflexivity|].
  apply Z.eqb_neq in E.
  pose proof (inter_area_nonneg A B) as Hn.
  destruct (Z.eq_dec (inter_area A B) 0) as [Hz | Hnz].
  - rewrite Hz. unfold Qdiv. rewrite Qmult_0_l. split; [apply Qle_refl | discriminate].
  - assert (Hpos : 0 < inter_area A B) by lia.
    pose proof (iou_denominator_bound A B Hpos).
    apply Qdiv_inject_range; lia.
Qed.

(** X2.  [iou] returns a positive number exactly when the two boxes
    overlap on both axes; in every other case where it returns, the result
    is 0. *)
Theorem iou_positive_iff_overlap (A B : box) :
  (exists v : Q, iou A B = Ok v /\ (0 < v)%Q) <-> ~ disjoint A B.
Proof.
  rewrite iou_exact. split.
  - intros (v & Hv & Hpos).
    destruct (iou_denominator A B =? 0) eqn:E; [discriminate|].
    injection Hv as <-.
    destruct (Z.eq_dec (inter_area A B) 0) as [Hz | Hnz].
    + rewrite Hz in Hpos. unfold Qdiv in Hpos. rewrite Qmult_0_l in Hpos.
      apply Qlt_irrefl in Hpos. contradiction.
    + pose proof (inter_area_nonneg A B).
      apply (inter_area_pos_proper A B). lia.
  - intros Hnd. pose proof (inter_area_overlap A B Hnd) as Hpos.
    pose proof (iou_denominator_bound A B Hpos) as Hd.
    destruct (iou_denominator A B =? 0) eqn:E; [apply Z.eqb_eq in E; lia|].
    eexists. split; [reflexivity|].
    apply Qlt_shift_div_l.
    + change 0%Q with (inject_Z 0). rewrite <- Zlt_Qlt. lia.
    + rewrite Qmult_0_l. change 0%Q with (inject_Z 0). rewrite <- Zlt_Qlt. exact Hpos.
Qed.

Lemma mul_eq_bounded (a b c d : Z) :
  0 <= a <= c -> 0 <= b <= d -> 0 < c -> 0 < d -> a * b = c * d -> a = c /\ b = d.
Proof.
  intros Ha Hb Hc Hd E.
  destruct (Z.eq_dec a c) as [-> | Hac].
  - split; [reflexivity|]. apply (Z.mul_reg_l _ _ c); lia.
  - exfalso. assert (a * b <= a * d) by (apply Z.mul_le_mono_nonneg_l; lia).
    assert (a * d < c * d) by (apply Z.mul_lt_mono_pos_r; lia). lia.
Qed.

Lemma inter_area_full (boxA boxB : box) :
  proper boxA -> inter_area boxA boxB = box_area boxA -> inside boxA boxB.
Proof.
  unfold proper, inter_area, box_area, inside. cbv zeta. intros [Hx Hy] E.
  apply mul_eq_bounded in E; lia.
Qed.

(** X3.  For two boxes of positive width and height, [iou] returns
    exactly 1 if and only if the two boxes are the same box. *)
Theorem iou_one_iff_equal (A B : box) :
  proper A -> proper B -> (yields (iou A B) 1 <-> A = B).
Proof.
  intros HA HB. split.
  - unfold yields. rewrite iou_exact.
    destruct (iou_denominator A B =? 0) eqn:E; [intros []|].
    apply Z.eqb_neq in E. intros Hq.
    apply (proj1 (Qdiv_inject_one _ _ E)) in Hq.
    pose proof (inter_area_le_l A B (proper_ordered _ HA)) as Hl.
    pose proof (inter_area_le_r A B (proper_ordered _ HB)) as Hr.
    unfold iou_denominator in Hq.
    assert (EA : inter_area A B = box_area A) by lia.
    assert (EB : inter_area B A = box_area B) by (rewrite inter_area_comm; lia).
    pose proof (inter_area_full A B HA EA) as IA.
    pose proof (inter_area_full B A HB EB) as IB.
    unfold inside in IA, IB.
    destruct A as [a0 a1 a2 a3], B as [b0 b1 b2 b3]; simpl in *.
    f_equal; lia.
  - intros <-. unfold yields. rewrite iou_exact.
    destruct HA as [Hx Hy].
    assert (Hd : iou_denominator A A = box_area A)
      by (unfold iou_denominator; rewrite inter_area_self by assumption; lia).
    assert (Hpos : 0 < box_area A) by (unfold box_area; nia).
    rewrite Hd, inter_area_self by assumption.
    destruct (box_area A =? 0) eqn:E; [apply Z.eqb_eq in E; lia|].
    apply Qdiv_inject_one; [lia | reflexivity].
Qed.

Lemma iou_one_iff_equal_witness :
  yields (iou (Box 47 35 147 101) (Box 49 36 145 100)) 1 <->
  Box 47 35 147 101 = Box 49 36 145 100.
Proof.
  apply (iou_one_iff_equal (Box 47 35 147 101) (Box 49 36 145 100));
    unfold proper; simpl; lia.
Defined.

Lemma inter_area_inside (inner outer : box) :
  ordered inner -> inside inner outer -> inter_area outer inner = box_area inner.
Proof.
  unfold ordered, inside, inter_area, box_area. cbv zeta.
  intros [Hx Hy] (H0 & H1 & H2 & H3).
  rewrite (Z.max_r (x_min outer)), (Z.max_r (y_min outer)) by lia.
  rewrite (Z.min_r (x_max outer)), (Z.min_r (y_max outer)) by lia.
  rewrite !Z.max_l by lia. reflexivity.
Qed.

(** X4.  When a box with ordered corners lies inside another box of
    positive area, their IoU is the ratio of the two areas: the area of the
    inner box over the area of the outer one. *)
Theorem iou_nested (outer inner : box) :
  ordered inner -> inside inner outer -> 0 < box_area outer ->
  exists v : Q,
    iou outer inner = Ok v /\
    (v == inject_Z (box_area inner) / inject_Z (box_area outer))%Q.
Proof.
  intros Hord Hin Hpos.
  rewrite iou_exact. unfold iou_denominator.
  rewrite (inter_area_inside inner outer Hord Hin).
  replace (box_area outer + box_area inner - box_area inner) with (box_area outer) by lia.
  destruct (box_area outer =? 0) eqn:E; [apply Z.eqb_eq in E; lia|].
  eexists. split; reflexivity.
Qed.

Lemma iou_nested_witness :
  exists v : Q,
    iou (Box 0 0 10 10) (Box 2 2 7 7) = Ok v /\
    (v == inject_Z (box_area (Box 2 2 7 7)) / inject_Z (box_area (Box 0 0 10 10)))%Q.
Proof.
  apply (iou_nested (Box 0 0 10 10) (Box 2 2 7 7)).
  - unfold ordered; simpl; lia.
  - unfold inside; simpl; lia.
  - reflexivity.
Defined.

Lemma inter_area_translate (dx dy : Z) (boxA boxB : box) :
  inter_area (translate dx dy boxA) (translate dx dy boxB) = inter_area boxA boxB.
Proof.
  unfold inter_area, translate. cbv zeta. simpl.
  rewrite !Z.add_max_distr_r, !Z.add_min_distr_r.
  f_equal; f_equal; lia.
Qed.

Lemma box_area_translate (dx dy : Z) (b : box) :
  box_area (translate dx dy b) = box_area b.
Proof. unfold box_area, translate. simpl. f_equal; lia. Qed.

(** X5.  Moving both boxes by the same offset does not change their IoU:
    [iou] gives the same result (number or exception), whatever the float
    arithmetic. *)
Theorem iou_translate (F : Type) (N : Numeric F) (dx dy : Z) (A B : box) :
  iou (F := F) (translate dx dy A) (translate dx dy B) = iou (F := F) A B.
Proof.
  unfold iou.
  rewrite inter_area_translate, !box_area_translate. reflexivity.
Qed.

Lemma max_zero_scale (k a : Z) : 0 < k -> Z.max (k * a) 0 = k * Z.max a 0.
Proof.
  intros Hk. rewrite <- (Z.mul_0_r k) at 1.
  apply Z.mul_max_distr_nonneg_l. lia.
Qed.

Lemma inter_area_enlarge (k : Z) (boxA boxB : box) :
  0 < k ->
  inter_area (enlarge k boxA) (enlarge k boxB) = k * k * inter_area boxA boxB.
Proof.
  intros Hk. unfold inter_area, enlarge. cbv zeta. simpl.
  rewrite !Z.mul_max_distr_nonneg_l, !Z.mul_min_distr_nonneg_l by lia.
  rewrite <- !Z.mul_sub_distr_l.
  rewrite !max_zero_scale by exact Hk. ring.
Qed.

Lemma box_area_enlarge (k : Z) (b : box) :
  box_area (enlarge k b) = k * k * box_area b.
Proof. unfold box_area, enlarge. simpl. ring. Qed.

(** X6.  Enlarging both boxes by the same positive integer factor, as a
    resize of the image does, leaves their IoU unchanged: [iou] raises on
    the enlarged boxes exactly when it raises on the original ones, and
    otherwise returns the same number. *)
Theorem iou_enlarge (k : Z) (A B : box) :
  0 < k ->
  returned (iou (F := Q) (enlarge k A) (enlarge k B)) = returned (iou (F := Q) A B) /\
  forall v : Q, yields (iou A B) v -> yields (iou (enlarge k A) (enlarge k B)) v.
Proof.
  intros Hk.
  assert (Hd : iou_denominator (enlarge k A) (enlarge k B)
               = k * k * iou_denominator A B)
    by (unfold iou_denominator;
        rewrite inter_area_enlarge, !box_area_enlarge by exact Hk; ring).
  rewrite !iou_exact, Hd, inter_area_enlarge by exact Hk.
  destruct (iou_denominator A B =? 0) eqn:E.
  - apply Z.eqb_eq in E. rewrite E, Z.mul_0_r. simpl. split; [reflexivity | intros v []].
  - apply Z.eqb_neq in E.
    assert (Hkd : k * k * iou_denominator A B <> 0) by nia.
    apply Z.eqb_neq in Hkd. rewrite Hkd. apply Z.eqb_neq in Hkd.
    split; [reflexivity|]. unfold yields. intros v Hv.
    rewrite <- Hv, !inject_Z_mult. field. split.
    + apply inject_Z_nonzero. exact E.
    + apply inject_Z_nonzero. lia.
Qed.

Lemma iou_enlarge_witness :
  returned (iou (F := Q) (enlarge 2 (Box 47 35 147 101)) (enlarge 2 (Box 49 36 145 100)))
  = returned (iou (F := Q) (Box 47 35 147 101) (Box 49 36 145 100)) /\
  forall v : Q,
    yields (iou (Box 47 35 147 101) (Box 49 36 145 100)) v ->
    yields (iou (enlarge 2 (Box 47 35 147 101)) (enlarge 2 (Box 49 36 145 100))) v.
Proof.
  apply (iou_enlarge 2 (Box 47 35 147 101) (Box 49 36 145 100)). lia.
Defined.

(** ** Labels *)

Lemma index_from_idx2labels (s : string) (idx : Z) :
  labels2idx s = Ok idx <-> idx2labels idx = Ok s.
Proof.
  split.
  - intros Hl. apply labels2idx_inv in Hl. apply Hl.
  - unfold idx2labels, labels2idx, filters.
    destruct (idx <? 0) eqn:Hneg; [discriminate|].
    apply Z.ltb_ge in Hneg.
    destruct (Z.to_nat idx) as [| [| [| [| [| n]]]]] eqn:En; simpl;
      intros E; try (destruct n; discriminate E);
      inversion E; subst; simpl; f_equal; lia.
Qed.

(** X7.  The two label dictionaries are inverse of each other:
    [labels2idx[s] = i] exactly when [idx2labels[i] = s]; a label is
    found exactly when it is one of the five of [filters], an index exactly
    when it is between 0 and 4, and every other key raises [KeyError]. *)
Theorem labels_bijection (s : string) (i : Z) :
  (labels2idx s = Ok i <-> idx2labels i = Ok s) /\
  (returned (labels2idx s) = true <-> In s filters) /\
  (returned (idx2labels i) = true <-> 0 <= i < num_classes) /\
  (~ In s filters -> labels2idx s = Raise KeyError) /\
  (~ 0 <= i < num_classes -> idx2labels i = Raise KeyError).
Proof.
  split; [apply index_from_idx2labels|].
  assert (Hs : returned (labels2idx s) = true <-> In s filters).
  { split.
    - destruct (labels2idx s) as [idx | e] eqn:E; [|discriminate].
      intros _. apply index_from_idx2labels in E.
      unfold idx2labels in E. destruct (idx <? 0); [discriminate|].
      destruct (nth_error filters (Z.to_nat idx)) as [x |] eqn:En; [|discriminate].
      injection E as <-. eapply nth_error_In. exact En.
    - intros Hin. destruct (labels2idx_total s Hin) as [idx ->]. reflexivity. }
  assert (Hi : returned (idx2labels i) = true <-> 0 <= i < num_classes).
  { unfold idx2labels, num_classes, filters. simpl List.length.
    destruct (i <? 0) eqn:Hneg.
    - apply Z.ltb_lt in Hneg. split; [discriminate | lia].
    - apply Z.ltb_ge in Hneg.
      destruct (Z.to_nat i) as [| [| [| [| [| n]]]]] eqn:En; simpl;
        try (destruct n; simpl);
        split; try reflexivity; try discriminate; lia. }
  split; [exact Hs|]. split; [exact Hi|]. split.
  - intros Hn. destruct (labels2idx s) as [idx | e] eqn:E.
    + exfalso. apply Hn, Hs. reflexivity.
    + revert E. unfold labels2idx, filters, index_from.
      repeat match goal with
             | |- context [String.eqb ?x s] => destruct (String.eqb x s)
             end; congruence.
  - intros Hn. destruct (idx2labels i) as [x | e] eqn:E.
    + exfalso. apply Hn, Hi. reflexivity.
    + revert E. unfold idx2labels.
      destruct (i <? 0); [congruence|].
      destruct (nth_error filters (Z.to_nat i)); congruence.
Qed.

(** ** Selecting the annotations *)

Lemma of_interest_In (obj : string * box) :
  of_interest obj = true <-> In (fst obj) filters.
Proof.
  unfold of_interest. rewrite existsb_exists. split.
  - intros (x & Hx & E). apply String.eqb_eq in E. subst x. exact Hx.
  - intros Hin. exists (fst obj). split; [exact Hin | apply String.eqb_refl].
Qed.

Lemma select_annotation_Some (p : parsed) (a : annotation) :
  select_annotation p = Some a <->
  filter of_interest (p_objects p) = [(ann_class a, ann_bbox a)] /\
  ann_size a = p_size p /\ ann_filename a = p_filename p.
Proof.
  unfold select_annotation. cbv zeta.
  destruct (filter of_interest (p_objects p)) as [| [name b] [| o l]].
  - split; [discriminate | intros [E _]; discriminate].
  - split.
    + intros E. injection E as <-. simpl. auto.
    + intros (E & Hs & Hf). destruct a as [sz fn c bb]. simpl in *.
      injection E as -> ->. subst. reflexivity.
  - split; [discriminate | intros [E _]; discriminate].
Qed.

Lemma select_annotations_In (files : list parsed) (a : annotation) :
  In a (select_annotations files) <->
  exists p, In p files /\ select_annotation p = Some a.
Proof.
  induction files as [| p rest IH]; simpl.
  - split; [intros [] | intros (p & [] & _)].
  - destruct (select_annotation p) as [a0 |] eqn:E; simpl; rewrite IH; split.
    + intros [<- | (q & Hq & Hs)]; [exists p | exists q]; auto.
    + intros (q & [<- | Hq] & Hs); [left; congruence | right; exists q; auto].
    + intros (q & Hq & Hs). exists q; auto.
    + intros (q & [<- | Hq] & Hs); [congruence | exists q; auto].
Qed.

(** X8.  The selection loop keeps an annotation exactly for the parsed
    files that hold one single object of interest, with that object's
    label and box and the file's size and name.  Hence every annotation it
    keeps has a class of [filters], and [tensorize_ground_truth] never
    raises [KeyError] on it, in exact or in binary64 arithmetic. *)
Theorem select_annotations_kept (files : list parsed) (a : annotation) :
  (In a (select_annotations files) <->
   exists p, In p files /\
     filter of_interest (p_objects p) = [(ann_class a, ann_bbox a)] /\
     ann_size a = p_size p /\ ann_filename a = p_filename p) /\
  (In a (select_annotations files) ->
   In (ann_class a) filters /\
   tensorize_annotation (F := Q) a <> Raise KeyError /\
   tensorize_annotation (F := float) a <> Raise KeyError).
Proof.
  assert (Hchar : In a (select_annotations files) <->
                  exists p, In p files /\
                    filter of_interest (p_objects p) = [(ann_class a, ann_bbox a)] /\
                    ann_size a = p_size p /\ ann_filename a = p_filename p).
  { rewrite select_annotations_In. split; intros (p & Hp & Hs); exists p;
      (split; [exact Hp|]); apply select_annotation_Some; exact Hs. }
  split; [exact Hchar|].
  intros Hin. apply Hchar in Hin. destruct Hin as (p & _ & Hf & _).
  assert (Hcls : In (ann_class a) filters).
  { assert (Hmem : In (ann_class a, ann_bbox a) (filter of_interest (p_objects p)))
      by (rewrite Hf; left; reflexivity).
    apply filter_In in Hmem. destruct Hmem as [_ Hi].
    apply of_interest_In in Hi. exact Hi. }
  split; [exact Hcls|].
  destruct (labels2idx_total _ Hcls) as [idx Hidx].
  split; unfold tensorize_annotation; rewrite Hidx; cbn [Py.bind];
    unfold int_truediv, of_int; cbn [fdiv is_finite exact binary64];
    repeat (match goal with
            | |- context [if ?c then _ else _] => destruct c
            end; cbn [Py.bind]);
    discriminate.
Qed.

Lemma select_annotations_kept_witness :
  In (ann_class (Annotation (500, 333) "000001.jpg" "dog" (Box 47 35 147 101))) filters /\
  tensorize_annotation (F := Q)
    (Annotation (500, 333) "000001.jpg" "dog" (Box 47 35 147 101)) <> Raise KeyError /\
  tensorize_annotation (F := float)
    (Annotation (500, 333) "000001.jpg" "dog" (Box 47 35 147 101)) <> Raise KeyError.
Proof.
  apply (select_annotations_kept
           [Parsed (500, 333) "000000.jpg" [("person"%string, Box 1 1 20 20)];
            Parsed (500, 333) "000001.jpg"
                   [("person"%string, Box 1 1 20 20); ("dog"%string, Box 47 35 147 101)];
            Parsed (353, 500) "000002.jpg"
                   [("cat"%string, Box 1 1 20 20); ("dog"%string, Box 30 30 90 90)]]
           (Annotation (500, 333) "000001.jpg" "dog" (Box 47 35 147 101))).
  simpl. left. reflexivity.
Defined.

(** ** The tensors of the ground truth *)

Lemma labels2idx_Ok_In (s : string) (idx : Z) :
  labels2idx s = Ok idx -> In s filters /\ 0 <= idx < num_classes.
Proof.
  intros E. apply index_from_idx2labels in E.
  unfold idx2labels in E. destruct (idx <? 0) eqn:Hneg; [discriminate|].
  apply Z.ltb_ge in Hneg.
  destruct (nth_error filters (Z.to_nat idx)) as [x |] eqn:En; [|discriminate].
  injection E as <-. split; [eapply nth_error_In; exact En|].
  assert (Hlt : (Z.to_nat idx < List.length filters)%nat)
    by (apply nth_error_Some; congruence).
  unfold num_classes. lia.
Qed.

Lemma tensorize_annotation_class (F : Type) (N : Numeric F)
      (a : annotation) (cls : list F) (b : center_box F) :
  tensorize_annotation a = Ok (cls, b) ->
  exists idx, labels2idx (ann_class a) = Ok idx /\ cls = one_hot idx.
Proof.
  unfold tensorize_annotation. intros E.
  apply bind_Ok in E. destruct E as (idx & Hidx & E).
  exists idx. split; [exact Hidx|].
  repeat (apply bind_Ok in E; destruct E as (? & _ & E)).
  injection E as <- _. reflexivity.
Qed.

Lemma tensorize_all_shape (F : Type) (N : Numeric F) (annotations : list annotation) :
  forall (all_cls : list (list F)) (all_boxes : list (center_box F)),
    tensorize_all annotations = Ok (all_cls, all_boxes) ->
    List.length all_boxes = List.length annotations /\
    Forall2 (fun a row => exists idx,
                 labels2idx (ann_class a) = Ok idx /\ row = one_hot idx)
            annotations all_cls.
Proof.
  induction annotations as [| a rest IH]; intros all_cls all_boxes E.
  - injection E as <- <-. split; [reflexivity | constructor].
  - simpl in E.
    apply bind_Ok in E. destruct E as ([cls b] & Ha & E).
    apply bind_Ok in E. destruct E as ([cs bs] & Hrest & E).
    injection E as <- <-.
    destruct (IH cs bs Hrest) as [Hlen Hrows].
    split; [simpl; congruence|].
    constructor; [|exact Hrows].
    eapply tensorize_annotation_class. exact Ha.
Qed.

Lemma one_hot_entries (F : Type) (N : Numeric F) (idx : Z) :
  List.length (one_hot (F := F) idx) = Z.to_nat num_classes /\
  forall j : nat, (j < Z.to_nat num_classes)%nat ->
    nth j (one_hot idx) (of_Z 0) = if Z.of_nat j =? idx then of_Z 1 else of_Z 0.
Proof.
  unfold one_hot.
  set (f := fun i : nat => if Z.of_nat i =? idx then of_Z 1 else of_Z 0).
  split.
  - rewrite length_map, length_seq. reflexivity.
  - intros j Hj.
    rewrite (nth_indep _ (of_Z 0) (f O))
      by (rewrite length_map, length_seq; exact Hj).
    rewrite (map_nth f), seq_nth by exact Hj. reflexivity.
Qed.

(** X9.  Whatever the float arithmetic, when [tensorize_ground_truth]
    returns, its input was not empty, it returns one class row and one box
    row per annotation, in order, and each class row is the one-hot
    encoding of the annotation's label: [num_classes] entries, a one at the
    index of the label and zeros elsewhere. *)
Theorem tensorize_ground_truth_shape (F : Type) (N : Numeric F)
        (annotations : list annotation)
        (classes : list (list F)) (boxes : list (center_box F)) :
  tensorize_ground_truth annotations = Ok (classes, boxes) ->
  annotations <> [] /\
  List.length boxes = List.length annotations /\
  Forall2 (fun a row =>
             exists idx,
               labels2idx (ann_class a) = Ok idx /\
               List.length row = Z.to_nat num_classes /\
               forall j : nat, (j < Z.to_nat num_classes)%nat ->
                 nth j row (of_Z 0) = if Z.of_nat j =? idx then of_Z 1 else of_Z 0)
          annotations classes.
Proof.
  unfold tensorize_ground_truth. intros E.
  apply bind_Ok in E. destruct E as ([cs bs] & Hall & E).
  destruct cs as [| c cs']; [discriminate|]. injection E as <- <-.
  destruct (tensorize_all_shape F N annotations _ _ Hall) as [Hlen Hrows].
  split; [intros ->; inversion Hrows|].
  split; [exact Hlen|].
  eapply Forall2_impl; [|exact Hrows].
  intros a row (idx & Hidx & ->). exists idx. split; [exact Hidx|].
  apply one_hot_entries.
Qed.

Lemma tensorize_ground_truth_shape_witness :
  exists (classes : list (list Q)) (boxes : list (center_box Q)),
    tensorize_ground_truth
      [Annotation (500, 333) "000001.jpg" "car" (Box 47 35 147 101);
       Annotation (353, 500) "000002.jpg" "dog" (Box 1 124 353 235)]
    = Ok (classes, boxes) /\
    List.length boxes = 2%nat.
Proof.
  destruct (tensorize_ground_truth (F := Q)
              [Annotation (500, 333) "000001.jpg" "car" (Box 47 35 147 101);
               Annotation (353, 500) "000002.jpg" "dog" (Box 1 124 353 235)])
    as [[classes boxes] | e] eqn:E.
  - exists classes, boxes. split; [reflexivity|].
    apply (tensorize_ground_truth_shape Q exact _ _ _ E).
  - vm_compute in E. discriminate.
Defined.

Lemma tensorize_annotation_returns (a : annotation) :
  returned (tensorize_annotation (F := Q) a) = true <-> usable a.
Proof.
  unfold usable. split.
  - destruct (tensorize_annotation (F := Q) a) as [[cls b] | e] eqn:E; [|discriminate].
    intros _. unfold tensorize_annotation in E.
    apply bind_Ok in E. destruct E as (idx & Hidx & E).
    split; [apply (labels2idx_Ok_In _ _ Hidx)|].
    destruct (Z.eq_dec (fst (ann_size a)) 0) as [HW | HW].
    + rewrite HW, exact_int_truediv_zero in E. discriminate.
    + split; [exact HW|].
      destruct (Z.eq_dec (snd (ann_size a)) 0) as [HH | HH]; [|exact HH].
      rewrite HH, exact_int_truediv_zero in E.
      apply bind_Ok in E. destruct E as (x1 & _ & E). discriminate.
  - intros (Hin & HW & HH).
    destruct (labels2idx_total _ Hin) as [idx Hidx].
    rewrite (tensorize_annotation_exact a idx Hidx HW HH). reflexivity.
Qed.

Lemma tensorize_all_returns (annotations : list annotation) :
  returned (tensorize_all (F := Q) annotations) = true <-> Forall usable annotations.
Proof.
  induction annotations as [| a rest IH]; simpl.
  - split; [constructor | reflexivity].
  - split.
    + destruct (tensorize_annotation (F := Q) a) as [[cls b] | e] eqn:Ea;
        [|discriminate].
      cbn [Py.bind].
      destruct (tensorize_all (F := Q) rest) as [[cs bs] | e] eqn:Er; [|discriminate].
      intros _. constructor.
      * apply tensorize_annotation_returns. rewrite Ea. reflexivity.
      * apply IH. reflexivity.
    + intros Hall. inversion Hall as [| x l Ha Hrest]; subst.
      apply tensorize_annotation_returns in Ha. apply IH in Hrest.
      destruct (tensorize_annotation (F := Q) a) as [[cls b] | e]; [|discriminate].
      cbn [Py.bind].
      destruct (tensorize_all (F := Q) rest) as [[cs bs] | e]; [|discriminate].
      reflexivity.
Qed.

(** X10.  In exact arithmetic [tensorize_ground_truth] returns exactly on
    the non-empty lists of annotations that all have a class of [filters]
    and an image of non-zero width and height.  On the empty list it raises
    [ValueError]; an unknown class in the first annotation raises
    [KeyError], and a zero width or height there [ZeroDivisionError]. *)
Theorem tensorize_ground_truth_returns (annotations : list annotation) :
  (returned (tensorize_ground_truth (F := Q) annotations) = true <->
   annotations <> [] /\ Forall usable annotations) /\
  tensorize_ground_truth (F := Q) [] = Raise ValueError /\
  (forall a rest,
      annotations = a :: rest ->
      (~ In (ann_class a) filters ->
       tensorize_ground_truth (F := Q) annotations = Raise KeyError) /\
      (In (ann_class a) filters ->
       fst (ann_size a) = 0 \/ snd (ann_size a) = 0 ->
       tensorize_ground_truth (F := Q) annotations = Raise ZeroDivisionError)).
Proof.
  split; [|split; [reflexivity|]].
  - unfold tensorize_ground_truth.
    pose proof (tensorize_all_returns annotations) as Hall.
    destruct (tensorize_all (F := Q) annotations) as [[cs bs] | e] eqn:E;
      cbn [Py.bind].
    + destruct (tensorize_all_shape Q exact annotations cs bs E) as [_ Hrows].
      destruct cs as [| c cs'].
      * inversion Hrows; subst. simpl. split; [discriminate | intros [Hne _]; contradiction].
      * simpl. split; [|reflexivity]. intros _.
        split; [intros ->; inversion Hrows | apply Hall; reflexivity].
    + simpl. split; [discriminate|]. intros [_ Hu]. apply Hall in Hu. discriminate.
  - intros a rest ->. split.
    + intros Hnot. unfold tensorize_ground_truth. simpl. unfold tensorize_annotation.
      destruct (labels2idx (ann_class a)) as [idx | e] eqn:E.
      * exfalso. apply Hnot. apply (labels2idx_Ok_In _ _ E).
      * revert E. unfold labels2idx, filters, index_from.
        repeat match goal with
               | |- context [String.eqb ?x (ann_class a)] =>
                   destruct (String.eqb x (ann_class a))
               end; try discriminate.
        intros E. injection E as <-. reflexivity.
    + intros Hin Hzero. unfold tensorize_ground_truth. simpl.
      unfold tensorize_annotation.
      destruct (labels2idx_total _ Hin) as [idx ->]. cbn [Py.bind].
      destruct (Z.eq_dec (fst (ann_size a)) 0) as [HW | HW].
      * rewrite HW, exact_int_truediv_zero. reflexivity.
      * destruct Hzero as [HW0 | HH0]; [contradiction|].
        rewrite (exact_int_truediv _ _ HW), HH0, exact_int_truediv_zero.
        reflexivity.
Qed.

Lemma tensorize_ground_truth_returns_witness :
  tensorize_ground_truth (F := Q)
    [Annotation (0, 333) "000001.jpg" "dog" (Box 47 35 147 101)]
  = Raise ZeroDivisionError /\
  tensorize_ground_truth (F := Q)
    [Annotation (500, 333) "000001.jpg" "person" (Box 47 35 147 101)]
  = Raise KeyError.
Proof.
  split.
  - apply (proj2 (proj2 (tensorize_ground_truth_returns
                           [Annotation (0, 333) "000001.jpg" "dog" (Box 47 35 147 101)]))
                 _ _ eq_refl).
    + simpl. auto.
    + left. reflexivity.
  - apply (proj2 (proj2 (tensorize_ground_truth_returns
                           [Annotation (500, 333) "000001.jpg" "person" (Box 47 35 147 101)]))
                 _ _ eq_refl).
    simpl. intros [E | [E | [E | [E | [E | []]]]]]; discriminate E.
Defined.

(** ** Interpreting the output of the model *)

Lemma exact_fltb (a b : Q) : fltb (F := Q) a b = true <-> (a < b)%Q.
Proof.
  simpl. rewrite negb_true_iff. split.
  - intros E. apply Qnot_le_lt. intros Hle.
    apply Qle_bool_iff in Hle. congruence.
  - intros Hlt. destruct (Qle_bool b a) eqn:E; [|reflexivity].
    apply Qle_bool_iff in E. exfalso. exact (Qlt_not_le _ _ Hlt E).
Qed.

Lemma exact_fltb_false (a b : Q) : fltb (F := Q) a b = false <-> (b <= a)%Q.
Proof.
  simpl. rewrite negb_false_iff. apply Qle_bool_iff.
Qed.

Lemma argmax_from_spec (l : list Q) :
  forall (pre : list Q) (best : Q) (bi : Z),
    0 <= bi ->
    nth_error pre (Z.to_nat bi) = Some best ->
    Forall (fun x => (x <= best)%Q) pre ->
    Forall (fun x => (x < best)%Q) (firstn (Z.to_nat bi) pre) ->
    0 <= argmax_from l (Z.of_nat (List.length pre)) best bi /\
    exists v,
      nth_error (pre ++ l)
                (Z.to_nat (argmax_from l (Z.of_nat (List.length pre)) best bi)) = Some v /\
      Forall (fun x => (x <= v)%Q) (pre ++ l) /\
      Forall (fun x => (x < v)%Q)
             (firstn (Z.to_nat (argmax_from l (Z.of_nat (List.length pre)) best bi))
                     (pre ++ l)).
Proof.
  induction l as [| x l IH]; intros pre best bi Hbi Hnth Hmax Hfirst.
  - simpl. rewrite app_nil_r. split; [exact Hbi|]. exists best. auto.
  - assert (Hlt : (Z.to_nat bi < List.length pre)%nat)
      by (apply nth_error_Some; congruence).
    assert (Hlen : Z.of_nat (List.length pre) + 1 = Z.of_nat (List.length (pre ++ [x])))
      by (rewrite length_app; simpl; lia).
    replace (pre ++ x :: l) with ((pre ++ [x]) ++ l)
      by (rewrite <- app_assoc; reflexivity).
    cbn [argmax_from]. rewrite Hlen.
    destruct (fltb best x) eqn:E.
    + apply exact_fltb in E. apply IH.
      * lia.
      * rewrite Nat2Z.id, nth_error_app2, Nat.sub_diag by apply le_n. reflexivity.
      * apply Forall_app. split.
        -- eapply Forall_impl; [|exact Hmax]. intros y Hy. simpl in Hy.
           apply Qlt_le_weak. eapply Qle_lt_trans; eassumption.
        -- constructor; [apply Qle_refl | constructor].
      * rewrite Nat2Z.id, firstn_app, firstn_all, Nat.sub_diag. simpl.
        rewrite app_nil_r.
        eapply Forall_impl; [|exact Hmax]. intros y Hy. simpl in Hy.
        eapply Qle_lt_trans; eassumption.
    + apply exact_fltb_false in E. apply IH.
      * exact Hbi.
      * rewrite nth_error_app1 by exact Hlt. exact Hnth.
      * apply Forall_app. split; [exact Hmax | constructor; [exact E | constructor]].
      * rewrite firstn_app.
        replace (Z.to_nat bi - List.length pre)%nat with O by lia.
        simpl. rewrite app_nil_r. exact Hfirst.
Qed.

Lemma argmax_spec (cls : list Q) :
  cls <> [] ->
  exists i v,
    argmax cls = Ok i /\ 0 <= i /\
    nth_error cls (Z.to_nat i) = Some v /\
    Forall (fun x => (x <= v)%Q) cls /\
    Forall (fun x => (x < v)%Q) (firstn (Z.to_nat i) cls).
Proof.
  destruct cls as [| x r]; [contradiction|]. intros _.
  destruct (argmax_from_spec r [x] x 0) as (Hpos & v & Hv & Hmax & Hfirst).
  - lia.
  - reflexivity.
  - constructor; [apply Qle_refl | constructor].
  - constructor.
  - exists (argmax_from r 1 x 0), v. simpl in *. auto.
Qed.

Lemma idx2labels_total (i : Z) :
  0 <= i < num_classes -> exists name, idx2labels i = Ok name.
Proof.
  unfold num_classes. intros Hi. unfold idx2labels.
  destruct (i <? 0) eqn:Hneg; [apply Z.ltb_lt in Hneg; lia|].
  destruct (nth_error filters (Z.to_nat i)) as [name |] eqn:En.
  - exists name. reflexivity.
  - apply nth_error_None in En. lia.
Qed.

(** X11.  When [interpret_output] returns (exact arithmetic), the class it
    reports is the label of the first highest score of [cls] and the
    confidence is that score: no score is greater, and every score before
    it is strictly smaller, so that a tie goes to the lowest index. *)
Theorem interpret_output_class (cls : list Q) (boxes : center_box Q)
        (img_size : Z * Z) (o : output Q) :
  interpret_output cls boxes img_size = Ok o ->
  Forall (fun x => (x <= out_confidence o)%Q) cls /\
  exists i : Z,
    0 <= i /\
    nth_error cls (Z.to_nat i) = Some (out_confidence o) /\
    idx2labels i = Ok (out_class o) /\
    Forall (fun x => (x < out_confidence o)%Q) (firstn (Z.to_nat i) cls).
Proof.
  intros E.
  assert (Hne : cls <> []) by (intros ->; discriminate E).
  destruct (argmax_spec cls Hne) as (i & v & Harg & Hi & Hnth & Hmax & Hfirst).
  unfold interpret_output in E. rewrite Harg in E. cbn [Py.bind] in E.
  apply bind_Ok in E. destruct E as (name & Hname & E).
  apply bind_Ok in E. destruct E as ([[[s0 s1] s2] s3] & _ & E).
  repeat (apply bind_Ok in E; destruct E as (? & _ & E)).
  injection E as <-. cbn [out_confidence out_class].
  rewrite (nth_error_nth _ _ _ Hnth).
  split; [exact Hmax|]. exists i. auto.
Qed.

Lemma interpret_output_class_witness :
  Forall (fun x => (x <= 7 # 10)%Q) [1 # 10; 7 # 10; 7 # 10; 0; 2 # 10]%Q /\
  exists i : Z,
    0 <= i /\
    nth_error [1 # 10; 7 # 10; 7 # 10; 0; 2 # 10]%Q (Z.to_nat i) = Some (7 # 10)%Q /\
    idx2labels i = Ok "cat"%string /\
    Forall (fun x => (x < 7 # 10)%Q) (firstn (Z.to_nat i) [1 # 10; 7 # 10; 7 # 10; 0; 2 # 10]%Q).
Proof.
  apply (interpret_output_class
           [1 # 10; 7 # 10; 7 # 10; 0; 2 # 10]%Q
           (CenterBox (100 # 1) (100 # 1) (50 # 1) (40 # 1))
           (500, 333)
           (Output "cat" (7 # 10)%Q (Box 167 118 279 178))).
  vm_compute. reflexivity.
Defined.

(** X12.  In exact arithmetic [interpret_output] raises [ValueError] on an
    empty vector of scores and returns on every vector of one to
    [num_classes] scores, whatever the scores, the box and the image
    size. *)
Theorem interpret_output_returns (cls : list Q) (boxes : center_box Q)
        (img_size : Z * Z) :
  interpret_output ([] : list Q) boxes img_size = Raise ValueError /\
  ((0 < List.length cls <= Z.to_nat num_classes)%nat ->
   returned (interpret_output cls boxes img_size) = true).
Proof.
  split; [reflexivity|]. intros Hlen.
  assert (Hne : cls <> []) by (intros ->; simpl in Hlen; lia).
  destruct (argmax_spec cls Hne) as (i & v & Harg & Hi & Hnth & _ & _).
  assert (Hlt : (Z.to_nat i < List.length cls)%nat)
    by (apply nth_error_Some; congruence).
  destruct (idx2labels_total i) as [name Hname]; [lia|].
  rewrite (interpret_output_exact cls boxes img_size i name Harg Hname).
  reflexivity.
Qed.

Lemma interpret_output_returns_witness :
  returned (interpret_output [1 # 10; 7 # 10; 7 # 10; 0; 2 # 10]%Q
              (CenterBox (100 # 1) (100 # 1) (50 # 1) (40 # 1)) (500, 333)) = true.
Proof.
  apply (interpret_output_returns [1 # 10; 7 # 10; 7 # 10; 0; 2 # 10]%Q
           (CenterBox (100 # 1) (100 # 1) (50 # 1) (40 # 1)) (500, 333)).
  simpl. lia.
Defined.

Lemma Qtrunc_nonneg (q : Q) : (0 <= q)%Q -> 0 <= Qtrunc q.
Proof.
  destruct q as [n d]. unfold Qle, Qtrunc. simpl. intros Hn.
  apply Z.quot_pos; lia.
Qed.

Lemma Qtrunc_le (q : Q) (m : Z) : (q <= inject_Z m)%Q -> Qtrunc q <= m.
Proof.
  destruct q as [n d]. unfold Qle, Qtrunc. simpl. intros Hn.
  rewrite <- (Z.quot_mul m (Zpos d)) by discriminate.
  apply Z.quot_le_mono; lia.
Qed.

Lemma pymax_zero_nonneg (v : Q) : (0 <= pymax (F := Q) (inject_Z 0) v)%Q.
Proof.
  unfold pymax. destruct (fltb (inject_Z 0) v) eqn:E.
  - apply exact_fltb in E. apply Qlt_le_weak. exact E.
  - apply Qle_refl.
Qed.

Lemma pymin_le_bound (r v : Q) : (pymin (F := Q) r v <= r)%Q.
Proof.
  unfold pymin. destruct (fltb v r) eqn:E.
  - apply exact_fltb in E. apply Qlt_le_weak. exact E.
  - apply Qle_refl.
Qed.

Lemma rescaled_nonneg (p : Q) (n : Z) :
  (0 <= p)%Q -> 0 <= n -> 0 <= Qtrunc (p * inject_Z n / inject_Z img_resize).
Proof.
  intros Hp Hn. apply Qtrunc_nonneg.
  apply Qle_shift_div_l; [reflexivity|].
  rewrite Qmult_0_l. apply Qmult_le_0_compat; [exact Hp|].
  change 0%Q with (inject_Z 0). rewrite <- Zle_Qle. exact Hn.
Qed.

Lemma rescaled_le (p : Q) (n : Z) :
  (p <= inject_Z img_resize)%Q -> 0 <= n ->
  Qtrunc (p * inject_Z n / inject_Z img_resize) <= n.
Proof.
  intros Hp Hn. apply Qtrunc_le.
  apply Qle_shift_div_r; [reflexivity|].
  rewrite (Qmult_comm (inject_Z n)).
  apply Qmult_le_compat_r; [exact Hp|].
  change 0%Q with (inject_Z 0). rewrite <- Zle_Qle. exact Hn.
Qed.

(** X13.  Whatever the model predicts, the box [interpret_output] returns
    (exact arithmetic) never starts before the image and never ends beyond
    it: [x_min] and [y_min] are not negative, [x_max] is at most the width
    and [y_max] at most the height of [img_size]. *)
Theorem interpret_output_clamped (cls : list Q) (boxes : center_box Q)
        (img_size : Z * Z) (o : output Q) :
  0 <= fst img_size -> 0 <= snd img_size ->
  interpret_output cls boxes img_size = Ok o ->
  0 <= x_min (out_bbox o) /\ 0 <= y_min (out_bbox o) /\
  x_max (out_bbox o) <= fst img_size /\ y_max (out_bbox o) <= snd img_size.
Proof.
  intros HW HH E.
  pose proof E as E'. unfold interpret_output in E'.
  apply bind_Ok in E'. destruct E' as (i & Harg & E').
  apply bind_Ok in E'. destruct E' as (name & Hname & _).
  rewrite (interpret_output_exact cls boxes img_size i name Harg Hname) in E.
  injection E as <-. cbn [out_bbox x_min y_min x_max y_max].
  split; [apply rescaled_nonneg; [apply pymax_zero_nonneg | exact HW]|].
  split; [apply rescaled_nonneg; [apply pymax_zero_nonneg | exact HH]|].
  split; apply rescaled_le; try apply pymin_le_bound; assumption.
Qed.

Lemma interpret_output_clamped_witness :
  0 <= x_min (Box 468 0 401 148) /\ 0 <= y_min (Box 468 0 401 148) /\
  x_max (Box 468 0 401 148) <= 500 /\ y_max (Box 468 0 401 148) <= 333.
Proof.
  apply (interpret_output_clamped
           [1 # 10; 7 # 10; 7 # 10; 0; 2 # 10]%Q
           (CenterBox (195 # 1) (-20 # 1) (-30 # 1) (240 # 1))
           (500, 333)
           (Output "cat" (7 # 10)%Q (Box 468 0 401 148))).
  - simpl. lia.
  - simpl. lia.
  - vm_compute. reflexivity.
Defined.

(** The box [interpret_output] returns need not have ordered corners: a
    predicted negative width gives [x_min > x_max]. *)
Example interpret_output_unordered :
  interpret_output [1 # 10; 7 # 10; 7 # 10; 0; 2 # 10]%Q
    (CenterBox (195 # 1) (-20 # 1) (-30 # 1) (240 # 1)) (500, 333)
  = Ok (Output "cat" (7 # 10)%Q (Box 468 0 401 148)).
Proof. vm_compute. reflexivity. Qed.

(** ** Accuracy: edge cases, range and threshold *)

Lemma combine_app_ignored {A B : Type} (l : list A) (l' extra : list B) :
  (List.length l <= List.length l')%nat ->
  combine l (l' ++ extra) = combine l l'.
Proof.
  revert l'. induction l as [| x l IH]; intros l' Hlen; [reflexivity|].
  destruct l' as [| y l']; simpl in *; [lia|].
  f_equal. apply IH. lia.
Qed.

(** X14.  Whatever the float arithmetic, [accuracy_and_iou] raises
    [ZeroDivisionError] on an empty list of predictions, and ground truths
    beyond the number of predictions are ignored: appending any to [trues]
    does not change the result. *)
Theorem accuracy_and_iou_lengths (F : Type) (N : Numeric F)
        (preds : list (output F)) (trues extra : list annotation) (threshold : F) :
  accuracy_and_iou (F := F) [] trues threshold = Raise ZeroDivisionError /\
  ((List.length preds <= List.length trues)%nat ->
   accuracy_and_iou preds (trues ++ extra) threshold
   = accuracy_and_iou preds trues threshold).
Proof.
  split; [reflexivity|].
  intros Hlen. unfold accuracy_and_iou.
  rewrite (combine_app_ignored preds trues extra Hlen). reflexivity.
Qed.

Lemma accuracy_and_iou_lengths_witness :
  accuracy_and_iou
    [Output "dog" (9 # 10)%Q (Box 46 34 147 100)]
    ([Annotation (500, 333) "000001.jpg" "dog" (Box 47 35 147 101)]
       ++ [Annotation (500, 333) "000002.jpg" "car" (Box 5 5 20 20)])
    (1 # 2)%Q
  = accuracy_and_iou
      [Output "dog" (9 # 10)%Q (Box 46 34 147 100)]
      [Annotation (500, 333) "000001.jpg" "dog" (Box 47 35 147 101)]
      (1 # 2)%Q.
Proof.
  apply (accuracy_and_iou_lengths Q exact
           [Output "dog" (9 # 10)%Q (Box 46 34 147 100)]
           [Annotation (500, 333) "000001.jpg" "dog" (Box 47 35 147 101)]
           [Annotation (500, 333) "000002.jpg" "car" (Box 5 5 20 20)]
           (1 # 2)%Q).
  simpl. lia.
Defined.

Lemma pair_iou_range (p : output Q * annotation) : (0 <= pair_iou p <= 1)%Q.
Proof.
  unfold pair_iou. rewrite iou_exact.
  destruct (iou_denominator (out_bbox (fst p)) (ann_bbox (snd p)) =? 0) eqn:E;
    [split; [apply Qle_refl | discriminate]|].
  apply Z.eqb_neq in E.
  pose proof (inter_area_nonneg (out_bbox (fst p)) (ann_bbox (snd p))) as Hn.
  destruct (Z.eq_dec (inter_area (out_bbox (fst p)) (ann_bbox (snd p))) 0) as [Hz | Hnz].
  - rewrite Hz. unfold Qdiv. rewrite Qmult_0_l. split; [apply Qle_refl | discriminate].
  - assert (Hpos : 0 < inter_area (out_bbox (fst p)) (ann_bbox (snd p))) by lia.
    pose proof (iou_denominator_bound _ _ Hpos).
    apply Qdiv_inject_range; lia.
Qed.

Lemma iou_total_range (pairs : list (output Q * annotation)) :
  (0 <= iou_total pairs <= inject_Z (Z.of_nat (List.length pairs)))%Q.
Proof.
  induction pairs as [| p l [IH0 IH1]].
  - simpl. split; apply Qle_refl.
  - destruct (pair_iou_range p) as [H0 H1]. simpl iou_total. split.
    + change 0%Q with (0 + 0)%Q. apply Qplus_le_compat; assumption.
    + replace (Z.of_nat (List.length (p :: l))) with (1 + Z.of_nat (List.length l))
        by (simpl List.length; lia).
      rewrite inject_Z_plus. apply Qplus_le_compat; assumption.
Qed.

Lemma accuracy_loop_defined (threshold : Q) (pairs : list (output Q * annotation)) :
  forall acc s : sums Q,
    accuracy_loop threshold acc pairs = Ok s -> iou_defined pairs.
Proof.
  induction pairs as [| [pred tr] l IH]; intros acc s E; [constructor|].
  simpl in E. apply bind_Ok in E. destruct E as (acc' & Hstep & E).
  constructor; [|exact (IH _ _ E)].
  simpl. apply iou_returns_iff.
  unfold accuracy_step in Hstep. apply bind_Ok in Hstep.
  destruct Hstep as (v & Hv & _). rewrite Hv. reflexivity.
Qed.

(** What a returned triple holds: the three fractions over the number of
    predictions, which is not zero. *)
Lemma accuracy_and_iou_inv (preds : list (output Q)) (trues : list annotation)
      (threshold a i v : Q) :
  accuracy_and_iou preds trues threshold = Ok (a, i, v) ->
  0 < Z.of_nat (List.length preds) /\
  (a == count class_match (combine preds trues)
        / inject_Z (Z.of_nat (List.length preds)))%Q /\
  (i == iou_total (combine preds trues)
        / inject_Z (Z.of_nat (List.length preds)))%Q /\
  (v == count (valid_match threshold) (combine preds trues)
        / inject_Z (Z.of_nat (List.length preds)))%Q.
Proof.
  unfold accuracy_and_iou. cbv zeta. intros E.
  apply bind_Ok in E. destruct E as (s & Hs & E).
  pose proof (accuracy_loop_defined _ _ _ _ Hs) as Hdef.
  destruct (accuracy_loop_sums threshold _ Hdef (Sums 0 0 (inject_Z 0)))
    as (s' & Hs' & Hv & Ha & Hi).
  change (of_Z 0) with (inject_Z 0) in Hs. rewrite Hs in Hs'. injection Hs' as <-.
  cbn [sum_valid sum_accurate sum_iou] in Hv, Ha, Hi.
  destruct (Z.eq_dec (Z.of_nat (List.length preds)) 0) as [Hz | Hnz].
  - rewrite Hz, exact_int_truediv_zero in E. discriminate.
  - rewrite !exact_int_truediv in E by exact Hnz. cbn [Py.bind] in E.
    rewrite exact_of_int in E. cbn [Py.bind] in E.
    rewrite exact_fdiv in E by (apply inject_Z_nonzero, Hnz). cbn [Py.bind] in E.
    injection E as <- <- <-.
    rewrite Hv, Ha, Hi. unfold count. simpl Z.add.
    split; [lia|]. split; [reflexivity|]. split; [|reflexivity].
    change (inject_Z 0) with 0%Q. rewrite Qplus_0_l. reflexivity.
Qed.

Lemma count_le_length (f : output Q * annotation -> bool)
      (preds : list (output Q)) (trues : list annotation) :
  (count f (combine preds trues) <= inject_Z (Z.of_nat (List.length preds)))%Q.
Proof.
  unfold count. rewrite <- Zle_Qle. apply inj_le.
  etransitivity; [apply filter_length_le|].
  rewrite length_combine. apply Nat.le_min_l.
Qed.

Lemma count_nonneg (f : output Q * annotation -> bool)
      (pairs : list (output Q * annotation)) : (0 <= count f pairs)%Q.
Proof.
  unfold count. change 0%Q with (inject_Z 0). rewrite <- Zle_Qle. lia.
Qed.

Lemma fraction_range (c : Q) (n : Z) :
  (0 <= c <= inject_Z n)%Q -> 0 < n -> (0 <= c / inject_Z n <= 1)%Q.
Proof.
  intros [H0 H1] Hn.
  assert (Hq : (0 < inject_Z n)%Q)
    by (change 0%Q with (inject_Z 0); rewrite <- Zlt_Qlt; exact Hn).
  split.
  - apply Qle_shift_div_l; [exact Hq|]. rewrite Qmult_0_l. exact H0.
  - apply Qle_shift_div_r; [exact Hq|]. rewrite Qmult_1_l. exact H1.
Qed.

(** X15.  Every triple [accuracy_and_iou] returns (exact arithmetic) is
    made of three numbers between 0 and 1, the boxes being ordered or not
    and the two lists being of equal length or not. *)
Theorem accuracy_and_iou_range (preds : list (output Q)) (trues : list annotation)
        (threshold a i v : Q) :
  accuracy_and_iou preds trues threshold = Ok (a, i, v) ->
  (0 <= a <= 1)%Q /\ (0 <= i <= 1)%Q /\ (0 <= v <= 1)%Q.
Proof.
  intros E. apply accuracy_and_iou_inv in E.
  destruct E as (Hn & -> & -> & ->).
  split; [|split]; apply fraction_range; try exact Hn.
  - split; [apply count_nonneg | apply count_le_length].
  - destruct (iou_total_range (combine preds trues)) as [H0 H1].
    split; [exact H0|]. eapply Qle_trans; [exact H1|].
    rewrite <- Zle_Qle. apply inj_le. rewrite length_combine. apply Nat.le_min_l.
  - split; [apply count_nonneg | apply count_le_length].
Qed.

Lemma accuracy_and_iou_range_witness :
  (0 <= 1 # 2 <= 1)%Q /\ (0 <= 6144 # 13200 <= 1)%Q /\ (0 <= 1 # 2 <= 1)%Q.
Proof.
  apply (accuracy_and_iou_range
           [Output "dog" (9 # 10)%Q (Box 49 36 145 100); Output "cat" (1 # 2)%Q (Box 0 0 10 10)]
           [Annotation (500, 333) "000001.jpg" "dog" (Box 47 35 147 101)]
           (1 # 2)%Q (1 # 2)%Q (6144 # 13200)%Q (1 # 2)%Q).
  vm_compute. reflexivity.
Defined.

Lemma filter_length_mono {A : Type} (f g : A -> bool) (l : list A) :
  (forall x, f x = true -> g x = true) ->
  (List.length (filter f l) <= List.length (filter g l))%nat.
Proof.
  intros Himp. induction l as [| x l IH]; [apply le_n|].
  simpl. destruct (f x) eqn:Ef.
  - rewrite (Himp x Ef). simpl. lia.
  - destruct (g x); simpl; lia.
Qed.

Lemma valid_match_iff (threshold : Q) (p : output Q * annotation) :
  valid_match threshold p = true <->
  class_match p = true /\
  iou_denominator (out_bbox (fst p)) (ann_bbox (snd p)) <> 0 /\
  (threshold < pair_iou p)%Q.
Proof.
  unfold valid_match, pair_iou. rewrite andb_true_iff, iou_exact.
  destruct (iou_denominator (out_bbox (fst p)) (ann_bbox (snd p)) =? 0) eqn:E.
  - apply Z.eqb_eq in E. split; [intros [_ Hf]; discriminate | intros (_ & Hd & _); contradiction].
  - apply Z.eqb_neq in E. rewrite exact_fltb. tauto.
Qed.

Lemma fraction_le (c c' : Q) (n : Z) :
  (c <= c')%Q -> 0 < n -> (c / inject_Z n <= c' / inject_Z n)%Q.
Proof.
  intros Hc Hn. unfold Qdiv. apply Qmult_le_compat_r; [exact Hc|].
  apply Qinv_le_0_compat. change 0%Q with (inject_Z 0). rewrite <- Zle_Qle. lia.
Qed.

Lemma count_le (f g : output Q * annotation -> bool)
      (pairs : list (output Q * annotation)) :
  (forall p, f p = true -> g p = true) -> (count f pairs <= count g pairs)%Q.
Proof.
  intros Himp. unfold count. rewrite <- Zle_Qle.
  apply inj_le, filter_length_mono, Himp.
Qed.

(** X16.  Raising the threshold changes neither the class accuracy nor
    the mean IoU and can only lower the global accuracy.  The comparison
    with the threshold is strict: with a threshold of 1 or more no pair is
    valid and the global accuracy is 0, and with a negative threshold every
    pair of matching class is valid and the global accuracy is the class
    accuracy (exact arithmetic). *)
Theorem accuracy_and_iou_threshold
        (preds : list (output Q)) (trues : list annotation)
        (t1 t2 a1 i1 v1 a2 i2 v2 : Q) :
  accuracy_and_iou preds trues t1 = Ok (a1, i1, v1) ->
  accuracy_and_iou preds trues t2 = Ok (a2, i2, v2) ->
  (t1 <= t2)%Q ->
  (a1 == a2)%Q /\ (i1 == i2)%Q /\ (v2 <= v1)%Q /\
  ((1 <= t2)%Q -> (v2 == 0)%Q) /\
  ((t1 < 0)%Q -> (v1 == a1)%Q).
Proof.
  intros E1 E2 Ht.
  pose proof (accuracy_loop_defined t1 (combine preds trues)) as Hdef.
  assert (Hd : iou_defined (combine preds trues)).
  { unfold accuracy_and_iou in E1. apply bind_Ok in E1.
    destruct E1 as (s & Hs & _). exact (Hdef _ _ Hs). }
  apply accuracy_and_iou_inv in E1. apply accuracy_and_iou_inv in E2.
  destruct E1 as (Hn & Ha1 & Hi1 & Hv1). destruct E2 as (_ & Ha2 & Hi2 & Hv2).
  split; [rewrite Ha1, Ha2; reflexivity|].
  split; [rewrite Hi1, Hi2; reflexivity|].
  split; [|split].
  - rewrite Hv1, Hv2. apply fraction_le; [|exact Hn].
    apply count_le. intros p Hp.
    apply valid_match_iff in Hp. destruct Hp as (Hc & Hden & Hlt).
    apply valid_match_iff. split; [exact Hc|]. split; [exact Hden|].
    eapply Qle_lt_trans; eassumption.
  - intros H1. rewrite Hv2.
    assert (Hz : List.length (filter (valid_match t2) (combine preds trues)) = O).
    { apply length_zero_iff_nil.
      destruct (filter (valid_match t2) (combine preds trues)) as [| p l] eqn:Ef;
        [reflexivity|].
      assert (Hin : In p (filter (valid_match t2) (combine preds trues)))
        by (rewrite Ef; left; reflexivity).
      apply filter_In in Hin. destruct Hin as [_ Hp].
      apply valid_match_iff in Hp. destruct Hp as (_ & _ & Hlt).
      destruct (pair_iou_range p) as [_ Hle]. exfalso.
      apply (Qlt_irrefl 1).
      eapply Qle_lt_trans; [exact H1|]. eapply Qlt_le_trans; eassumption. }
    unfold count. rewrite Hz. unfold Qdiv. apply Qmult_0_l.
  - intros Hneg. rewrite Hv1, Ha1.
    assert (Hsame : filter (valid_match t1) (combine preds trues)
                    = filter class_match (combine preds trues)).
    { apply filter_ext_in. intros p Hp.
      destruct (class_match p) eqn:Hc.
      - apply valid_match_iff. split; [exact Hc|]. split.
        + unfold iou_defined in Hd. rewrite Forall_forall in Hd. apply Hd, Hp.
        + destruct (pair_iou_range p) as [H0 _]. eapply Qlt_le_trans; eassumption.
      - unfold valid_match. rewrite Hc. reflexivity. }
    unfold count. rewrite Hsame. reflexivity.
Qed.

Lemma accuracy_and_iou_threshold_witness :
  (1 # 2 == 1 # 2)%Q /\ (6144 # 13200 == 6144 # 13200)%Q /\ (0 # 2 <= 1 # 2)%Q /\
  ((1 <= 1)%Q -> (0 # 2 == 0)%Q) /\
  ((1 # 2 < 0)%Q -> (1 # 2 == 1 # 2)%Q).
Proof.
  apply (accuracy_and_iou_threshold
           [Output "dog" (9 # 10)%Q (Box 49 36 145 100); Output "cat" (1 # 2)%Q (Box 0 0 10 10)]
           [Annotation (500, 333) "000001.jpg" "dog" (Box 47 35 147 101)]
           (1 # 2)%Q 1%Q
           (1 # 2)%Q (6144 # 13200)%Q (1 # 2)%Q
           (1 # 2)%Q (6144 # 13200)%Q (0 # 2)%Q).
  - vm_compute. reflexivity.
  - vm_compute. reflexivity.
  - discriminate.
Defined.

(** ** Evaluating a model *)

Lemma combine_map_fst_snd {A B : Type} (l : list (A * B)) :
  combine (map fst l) (map snd l) = l.
Proof.
  induction l as [| [a b] l IH]; [reflexivity|]. simpl. rewrite IH. reflexivity.
Qed.

Lemma nth_error_firstn_Some {A : Type} (n : nat) (l : list A) (j : nat) (a : A) :
  nth_error (firstn n l) j = Some a -> nth_error l j = Some a.
Proof.
  revert l j. induction n as [| n IH]; intros l j E.
  - destruct j; discriminate.
  - destruct l as [| x l]; [destruct j; discriminate|].
    destruct j as [| j]; simpl in *; [exact E | apply IH, E].
Qed.

Lemma Forall_firstn_keeps {A : Type} (P : A -> Prop) (n : nat) (l : list A) :
  Forall P l -> Forall P (firstn n l).
Proof.
  intros Hall. revert n. induction Hall as [| x l Hx _ IH]; intros n.
  - rewrite firstn_nil. constructor.
  - destruct n as [| n]; simpl; constructor; [exact Hx | apply IH].
Qed.

Lemma interpret_outputs_perfect (repr : Type) (annotations : list annotation)
      (l : list annotation) (rows : list (list Q * center_box Q)) :
  Forall2 (fun a r =>
             tensorize_annotation a = Ok r /\
             interpret_output (fst r) (snd r) (ann_size a) =
             Ok (Output (ann_class a) (inject_Z 1) (ann_bbox a))) l rows ->
  forall k : nat,
    (forall j a, nth_error l j = Some a -> nth_error annotations (k + j) = Some a) ->
    interpret_outputs annotations k rows = Ok (map perfect l).
Proof.
  induction 1 as [| a [cls b] l rows [_ Hint] _ IH]; intros k Hnth; [reflexivity|].
  simpl. pose proof (Hnth O a eq_refl) as H0. rewrite Nat.add_0_r in H0.
  rewrite H0. simpl in Hint. rewrite Hint. cbn [Py.bind].
  rewrite (IH (S k)).
  - reflexivity.
  - intros j a' Hj. replace (S k + j)%nat with (k + S j)%nat by lia.
    apply Hnth. exact Hj.
Qed.

Lemma perfect_pairs (l : list annotation) :
  Forall (fun a => proper (ann_bbox a)) l ->
  Forall (fun p => class_match p = true /\
                   iou_denominator (out_bbox (fst p)) (ann_bbox (snd p)) <> 0 /\
                   (pair_iou p == 1)%Q)
         (combine (map perfect l) l).
Proof.
  induction 1 as [| a l [Hx Hy] _ IH]; simpl; constructor; [|exact IH].
  unfold class_match, pair_iou, perfect. cbn [fst snd out_bbox out_class].
  assert (Hd : iou_denominator (ann_bbox a) (ann_bbox a) = box_area (ann_bbox a))
    by (unfold iou_denominator; rewrite inter_area_self by assumption; lia).
  assert (Hpos : 0 < box_area (ann_bbox a)) by (unfold box_area; nia).
  split; [apply String.eqb_refl|]. split; [lia|].
  rewrite iou_exact, Hd, inter_area_self by assumption.
  destruct (box_area (ann_bbox a) =? 0) eqn:E; [apply Z.eqb_eq in E; lia|].
  apply Qdiv_inject_one; [lia | reflexivity].
Qed.

Lemma accuracy_and_iou_perfect (l : list annotation) (threshold : Q) :
  l <> [] -> Forall (fun a => proper (ann_bbox a)) l -> (threshold < 1)%Q ->
  exists a i v : Q,
    accuracy_and_iou (map perfect l) l threshold = Ok (a, i, v) /\
    (a == 1)%Q /\ (i == 1)%Q /\ (v == 1)%Q.
Proof.
  intros Hne Hprop Hthr.
  pose proof (perfect_pairs l Hprop) as Hpairs.
  set (pairs := combine (map perfect l) l) in *.
  assert (Hlen : List.length pairs = List.length l)
    by (unfold pairs; rewrite length_combine, length_map; apply Nat.min_id).
  assert (Hdef : iou_defined pairs)
    by (eapply Forall_impl; [|exact Hpairs]; intros p (_ & Hd & _); exact Hd).
  assert (Hcls : filter class_match pairs = pairs).
  { clear Hlen Hdef. induction Hpairs as [| p ps (Hc & _ & _) _ IH]; [reflexivity|].
    simpl. rewrite Hc, IH. reflexivity. }
  assert (Hval : filter (valid_match threshold) pairs = pairs).
  { clear Hlen Hdef Hcls. induction Hpairs as [| p ps (Hc & Hd & Hi) _ IH]; [reflexivity|].
    simpl. rewrite IH.
    replace (valid_match threshold p) with true; [reflexivity|].
    symmetry. apply valid_match_iff. split; [exact Hc|]. split; [exact Hd|].
    rewrite Hi. exact Hthr. }
  assert (Htot : (iou_total pairs == inject_Z (Z.of_nat (List.length pairs)))%Q).
  { clear Hlen Hdef Hcls Hval. induction Hpairs as [| p ps (_ & _ & Hi) _ IH]; [reflexivity|].
    simpl iou_total. rewrite Hi, IH.
    replace (Z.of_nat (List.length (p :: ps))) with (1 + Z.of_nat (List.length ps))
      by (simpl List.length; lia).
    rewrite inject_Z_plus. reflexivity. }
  assert (Hnum : Z.of_nat (List.length (map perfect l)) <> 0)
    by (rewrite length_map; destruct l; [contradiction | simpl; lia]).
  destruct (accuracy_loop_sums threshold pairs Hdef (Sums 0 0 (inject_Z 0)))
    as (s & Hs & Hv & Ha & Hi).
  cbn [sum_valid sum_accurate sum_iou] in Hv, Ha, Hi.
  unfold accuracy_and_iou. cbv zeta. fold pairs.
  change (of_Z 0) with (inject_Z 0). rewrite Hs. cbn [Py.bind].
  rewrite !exact_int_truediv by exact Hnum. cbn [Py.bind].
  rewrite exact_of_int. cbn [Py.bind].
  rewrite exact_fdiv by (apply inject_Z_nonzero, Hnum). cbn [Py.bind].
  do 3 eexists. split; [reflexivity|].
  rewrite Hv, Ha, Hi, Hcls, Hval, Htot, Hlen, length_map. simpl Z.add.
  pose proof (inject_Z_nonzero _ Hnum) as Hq. rewrite length_map in Hq.
  change (inject_Z 0) with 0%Q.
  repeat split; field; exact Hq.
Qed.

(** X17.  A model that returns exactly the ground-truth tensors gets
    every class right on the training split: when the annotations are of
    known classes with boxes of positive area within their images, and
    there are at least two of them, [compute_acc] with [train=True] returns
    and reports a class accuracy of 1.  The class of a prediction is read
    from its one-hot row alone, so the truncation of the coordinates by
    [interpret_output] has no part in it. *)
Theorem compute_acc_perfect_train (repr : Type)
        (predict : list repr -> list (list Q) * list (center_box Q))
        (reprs : list repr) (annotations : list annotation) :
  Forall within_image annotations ->
  Forall (fun a => proper (ann_bbox a)) annotations ->
  (2 <= List.length annotations)%nat ->
  tensorize_ground_truth
    (slice annotations 0 (9 * Z.of_nat (List.length annotations) / 10))
  = Ok (predict (slice reprs 0 (9 * Z.of_nat (List.length annotations) / 10))) ->
  exists a i v : Q,
    compute_acc repr predict (1 # 2)%Q reprs annotations true
    = Ok ("train"%string, a, i, v) /\
    (a == 1)%Q.
Proof.
  intros Hwithin Hproper Hn Hmodel.
  unfold compute_acc. cbv zeta.
  set (m := 9 * Z.of_nat (List.length annotations) / 10) in *.
  assert (Hm : 1 <= m) by (unfold m; Z.div_mod_to_equations; lia).
  unfold slice in *. rewrite Z.sub_0_r in *. simpl skipn in *.
  set (l := firstn (Z.to_nat m) annotations) in *.
  assert (Hl : l <> []).
  { unfold l. destruct annotations as [| a0 rest]; [simpl in Hn; lia|].
    destruct (Z.to_nat m) eqn:Em; [lia | discriminate]. }
  destruct (tensorized_rows l) as [rows Hrows];
    [apply Forall_firstn_keeps; exact Hwithin|].
  assert (Hten : tensorize_all l = Ok (map fst rows, map snd rows)).
  { apply tensorize_all_rows.
    eapply Forall2_impl; [|exact Hrows]. intros x r [Hx _]. exact Hx. }
  unfold tensorize_ground_truth in Hmodel. rewrite Hten in Hmodel.
  cbn [Py.bind] in Hmodel.
  destruct (map fst rows) as [| c cs] eqn:Ec; [discriminate|].
  injection Hmodel as Hmodel. rewrite <- Hmodel. cbn [fst snd].
  rewrite <- Ec, combine_map_fst_snd.
  rewrite (interpret_outputs_perfect repr annotations l rows Hrows O)
    by (intros j a Hj; simpl; eapply nth_error_firstn_Some; exact Hj).
  cbn [Py.bind].
  destruct (accuracy_and_iou_perfect l (1 # 2)%Q Hl) as (a & i & v & Hacc & Ha & Hi & Hv).
  - apply Forall_firstn_keeps. exact Hproper.
  - reflexivity.
  - rewrite Hacc. cbn [Py.bind]. exists a, i, v. split; [reflexivity | exact Ha].
Qed.

Lemma compute_acc_perfect_train_witness :
  exists a i v : Q,
    compute_acc unit
      (fun _ => ([[1; 0; 0; 0; 0]%Q],
                 [CenterBox (((147 * 224 # 1) / (500 # 1) + (47 * 224 # 1) / (500 # 1)) / (2 # 1))
                            (((101 * 224 # 1) / (333 # 1) + (35 * 224 # 1) / (333 # 1)) / (2 # 1))
                            ((147 * 224 # 1) / (500 # 1) - (47 * 224 # 1) / (500 # 1))
                            ((101 * 224 # 1) / (333 # 1) - (35 * 224 # 1) / (333 # 1))]%Q))
      (1 # 2)%Q [tt; tt]
      [Annotation (500, 333) "000001.jpg" "dog" (Box 47 35 147 101);
       Annotation (353, 500) "000002.jpg" "car" (Box 1 124 353 235)]
      true
    = Ok ("train"%string, a, i, v) /\
    (a == 1)%Q.
Proof.
  apply (compute_acc_perfect_train unit
           (fun _ => ([[1; 0; 0; 0; 0]%Q],
                      [CenterBox (((147 * 224 # 1) / (500 # 1) + (47 * 224 # 1) / (500 # 1)) / (2 # 1))
                                 (((101 * 224 # 1) / (333 # 1) + (35 * 224 # 1) / (333 # 1)) / (2 # 1))
                                 ((147 * 224 # 1) / (500 # 1) - (47 * 224 # 1) / (500 # 1))
                                 ((101 * 224 # 1) / (333 # 1) - (35 * 224 # 1) / (333 # 1))]%Q))
           [tt; tt]
           [Annotation (500, 333) "000001.jpg" "dog" (Box 47 35 147 101);
            Annotation (353, 500) "000002.jpg" "car" (Box 1 124 353 235)]).
  - repeat constructor; simpl; auto 10; lia.
  - repeat constructor; simpl; lia.
  - simpl. lia.
  - reflexivity.
Defined.

Lemma interpret_outputs_sizes (F : Type) (N : Numeric F)
      (annotations annotations' : list annotation)
      (rows : list (list F * center_box F)) :
  forall k : nat,
    (forall j, (k <= j < k + List.length rows)%nat ->
               option_map ann_size (nth_error annotations' j)
               = option_map ann_size (nth_error annotations j)) ->
    interpret_outputs annotations' k rows = interpret_outputs annotations k rows.
Proof.
  induction rows as [| [cls b] rows IH]; intros k Hsizes; [reflexivity|].
  simpl. pose proof (Hsizes k) as Hk. simpl in Hk.
  rewrite (IH (S k)) by (intros j Hj; apply Hsizes; simpl; lia).
  destruct (nth_error annotations' k) as [a' |], (nth_error annotations k) as [a |];
    simpl in Hk; try (specialize (Hk ltac:(lia)); discriminate); [|reflexivity].
  specialize (Hk ltac:(lia)). injection Hk as ->. reflexivity.
Qed.

Lemma accuracy_loop_labels (F : Type) (N : Numeric F) (threshold : F)
      (preds : list (output F)) :
  forall (trues trues' : list annotation) (acc : sums F),
    Forall2 (fun a a' => ann_class a' = ann_class a /\ ann_bbox a' = ann_bbox a)
            trues trues' ->
    accuracy_loop threshold acc (combine preds trues')
    = accuracy_loop threshold acc (combine preds trues).
Proof.
  induction preds as [| p preds IH]; intros trues trues' acc Hsame; [reflexivity|].
  destruct Hsame as [| a a' l l' [Hc Hb] Hrest]; [reflexivity|].
  simpl. unfold accuracy_step. rewrite Hc, Hb.
  destruct (iou (out_bbox p) (ann_bbox a)) as [v | e]; cbn [Py.bind]; [|reflexivity].
  apply IH. exact Hrest.
Qed.

Lemma firstn_Forall2 {A B : Type} (P : A -> B -> Prop) (n : nat)
      (l : list A) (l' : list B) :
  Forall2 P l l' -> Forall2 P (firstn n l) (firstn n l').
Proof.
  intros Hall. revert n. induction Hall as [| x y l l' Hxy _ IH]; intros n.
  - rewrite !firstn_nil. constructor.
  - destruct n as [| n]; simpl; constructor; [exact Hxy | apply IH].
Qed.

(** X18.  In the test split ([train=False]) [compute_acc] interprets the
    prediction number [k] at the image size of [annotations[k]], counted
    from the start of the list, and scores it against
    [annotations[beg + k]].  So the image sizes recorded in the test
    annotations are never read: with at least two annotations and a model
    that returns at most one row per image, changing those sizes leaves the
    result unchanged, whatever the float arithmetic. *)
Theorem compute_acc_test_sizes (F : Type) (N : Numeric F) (repr : Type)
        (predict : list repr -> list (list F) * list (center_box F))
        (half : F) (reprs : list repr) (annotations annotations' : list annotation) :
  (2 <= List.length annotations)%nat ->
  List.length annotations' = List.length annotations ->
  (forall k, (k < Z.to_nat (9 * Z.of_nat (List.length annotations) / 10))%nat ->
             nth_error annotations' k = nth_error annotations k) ->
  Forall2 (fun a a' => ann_class a' = ann_class a /\ ann_bbox a' = ann_bbox a)
          (skipn (Z.to_nat (9 * Z.of_nat (List.length annotations) / 10)) annotations)
          (skipn (Z.to_nat (9 * Z.of_nat (List.length annotations) / 10)) annotations') ->
  (List.length (fst (predict (slice reprs (9 * Z.of_nat (List.length annotations) / 10)
                                    (Z.of_nat (List.length annotations)))))
   <= List.length (slice reprs (9 * Z.of_nat (List.length annotations) / 10)
                         (Z.of_nat (List.length annotations))))%nat ->
  compute_acc repr predict half reprs annotations' false
  = compute_acc repr predict half reprs annotations false.
Proof.
  intros Hn Hlen Htrain Htest Hrows.
  unfold compute_acc. cbv zeta. rewrite Hlen.
  set (n := Z.of_nat (List.length annotations)) in *.
  set (beg := 9 * n / 10) in *.
  set (res := predict (slice reprs beg n)) in *.
  assert (Hbeg : 0 <= n - beg <= beg)
    by (unfold beg, n; Z.div_mod_to_equations; lia).
  assert (Hshort : (List.length (combine (fst res) (snd res)) <= Z.to_nat beg)%nat).
  { rewrite length_combine.
    assert (List.length (slice reprs beg n) <= Z.to_nat (n - beg))%nat
      by (unfold slice; rewrite length_firstn; apply Nat.le_min_l).
    lia. }
  rewrite (interpret_outputs_sizes F N annotations annotations' _ O).
  - destruct (interpret_outputs annotations 0 (combine (fst res) (snd res)))
      as [outputs | e]; cbn [Py.bind]; [|reflexivity].
    unfold accuracy_and_iou, slice.
    rewrite (accuracy_loop_labels F N half outputs
               (firstn (Z.to_nat (n - beg)) (skipn (Z.to_nat beg) annotations))
               (firstn (Z.to_nat (n - beg)) (skipn (Z.to_nat beg) annotations')));
      [reflexivity|].
    apply firstn_Forall2. exact Htest.
  - intros j Hj. rewrite Htrain by lia. reflexivity.
Qed.

Lemma compute_acc_test_sizes_witness :
  compute_acc unit
    (fun _ => ([[0; 0; 0; 1; 0]%Q], [CenterBox (100 # 1) (100 # 1) (50 # 1) (40 # 1)]%Q))
    (1 # 2)%Q [tt; tt]
    [Annotation (500, 333) "000001.jpg" "dog" (Box 47 35 147 101);
     Annotation (1000, 1000) "000002.jpg" "car" (Box 160 110 280 180)]
    false
  = compute_acc unit
      (fun _ => ([[0; 0; 0; 1; 0]%Q], [CenterBox (100 # 1) (100 # 1) (50 # 1) (40 # 1)]%Q))
      (1 # 2)%Q [tt; tt]
      [Annotation (500, 333) "000001.jpg" "dog" (Box 47 35 147 101);
       Annotation (353, 500) "000002.jpg" "car" (Box 160 110 280 180)]
      false.
Proof.
  apply (compute_acc_test_sizes Q exact unit
           (fun _ => ([[0; 0; 0; 1; 0]%Q], [CenterBox (100 # 1) (100 # 1) (50 # 1) (40 # 1)]%Q))
           (1 # 2)%Q [tt; tt]
           [Annotation (500, 333) "000001.jpg" "dog" (Box 47 35 147 101);
            Annotation (353, 500) "000002.jpg" "car" (Box 160 110 280 180)]
           [Annotation (500, 333) "000001.jpg" "dog" (Box 47 35 147 101);
            Annotation (1000, 1000) "000002.jpg" "car" (Box 160 110 280 180)]).
  - simpl. lia.
  - reflexivity.
  - intros k Hk. destruct k as [| k]; [reflexivity|]. simpl in Hk. lia.
  - simpl. constructor; [split; reflexivity | constructor].
  - simpl. lia.
Defined.

(** On that input the test prediction, a box of the 353 x 500 image, is
    rescaled to the 500 x 333 size of the first annotation. *)
Example compute_acc_test_first_size :
  compute_acc unit
    (fun _ => ([[0; 0; 0; 1; 0]%Q], [CenterBox (100 # 1) (100 # 1) (50 # 1) (40 # 1)]%Q))
    (1 # 2)%Q [tt; tt]
    [Annotation (500, 333) "000001.jpg" "dog" (Box 47 35 147 101);
     Annotation (353, 500) "000002.jpg" "car" (Box 160 110 280 180)]
    false
  = Ok ("test"%string, 1 # 1, 6720 # 8400, 1 # 1)%Q.
Proof. vm_compute. reflexivity. Qed.

(** ** Webcam snapshot: the other paths *)

Section CameraPaths.

Import Camera.

Variable image : Type.
Variable read_outcome : nat -> result (bool * value image).
Variable cvtColor : value image -> result (value image).
Variable imread : string -> result (value image).

Lemma read_loop_ten (w : world) (ok : bool) (frame : value image) :
  (forall k, (k < 9)%nat -> returned (read_outcome (frames_read w + k)) = true) ->
  read_outcome (frames_read w + 9) = Ok (ok, frame) ->
  read_loop image read_outcome 10 (false, PyNone)
            (World true (frames_read w) (printed w))
  = (Ok (ok, frame), World true (frames_read w + 10) (printed w)).
Proof.
  intros Hreads Hlast.
  destruct (read_loop_returns image read_outcome 10 (false, PyNone)
              (World true (frames_read w) (printed w))) as (r & Hr & _ & Hs).
  - intros k Hk. cbn [frames_read].
    destruct (Nat.eq_dec k 9) as [-> | Hk9]; [rewrite Hlast; reflexivity|].
    apply Hreads. lia.
  - specialize (Hs 9%nat eq_refl). cbn [frames_read] in Hs.
    rewrite Hlast in Hs. injection Hs as <-. exact Hr.
Qed.

(** X19.  When the ten reads return and the last one reports a snapshot,
    [camera_grab] hands that last frame to [cv2.cvtColor] and its outcome
    is the outcome of the conversion: the flags of the first nine reads and
    the fallback file play no part, nothing is printed, ten frames have
    been read and the camera is released. *)
Theorem camera_grab_snapshot
        (camera_id : Z) (fallback_filename : option string) (w : world)
        (frame : value image) :
  (forall k, (k < 9)%nat -> returned (read_outcome (frames_read w + k)) = true) ->
  read_outcome (frames_read w + 9) = Ok (true, frame) ->
  camera_grab image read_outcome cvtColor imread camera_id fallback_filename w
  = (cvtColor frame, World false (frames_read w + 10) (printed w)).
Proof.
  intros Hreads Hlast.
  unfold camera_grab, seq_action at 1, video_capture, try_finally, grab_body, seq_action.
  rewrite (read_loop_ten w true frame Hreads Hlast).
  unfold lift, camera_release. cbn [frames_read printed]. reflexivity.
Qed.

(** X20.  When the ten reads return, the last one without a snapshot, and
    no fallback file name is given ([None] or the empty string),
    [camera_grab] prints its warning once and returns what the last read
    gave as a frame, without raising; the camera is released. *)
Theorem camera_grab_no_fallback
        (camera_id : Z) (fallback_filename : option string) (w : world)
        (frame : value image) :
  (forall k, (k < 9)%nat -> returned (read_outcome (frames_read w + k)) = true) ->
  read_outcome (frames_read w + 9) = Ok (false, frame) ->
  fallback_filename = None \/ fallback_filename = Some EmptyString ->
  camera_grab image read_outcome cvtColor imread camera_id fallback_filename w
  = (Ok frame,
     World false (frames_read w + 10)
           (printed w ++ ["WARNING: could not access camera"%string])).
Proof.
  intros Hreads Hlast Hnone.
  unfold camera_grab, seq_action at 1, video_capture, try_finally, grab_body, seq_action.
  rewrite (read_loop_ten w false frame Hreads Hlast).
  destruct Hnone as [-> | ->]; reflexivity.
Qed.

Lemma read_loop_raises (n : nat) :
  forall (k : nat) (cur : bool * value image) (w : world) (e : exn),
    (k < n)%nat ->
    (forall j, (j < k)%nat -> returned (read_outcome (frames_read w + j)) = true) ->
    read_outcome (frames_read w + k) = Raise e ->
    read_loop image read_outcome n cur w
    = (Raise e, World (camera_held w) (frames_read w + S k) (printed w)).
Proof.
  induction n as [| n IH]; intros k cur w e Hk Hbefore Hraise; [lia|].
  simpl. unfold seq_action, camera_read.
  destruct k as [| k].
  - rewrite Nat.add_0_r in Hraise. rewrite Hraise.
    f_equal. f_equal. lia.
  - pose proof (Hbefore O (Nat.lt_0_succ k)) as H0. rewrite Nat.add_0_r in H0.
    destruct (read_outcome (frames_read w)) as [r0 | e0]; [|discriminate].
    rewrite (IH k r0 (World (camera_held w) (S (frames_read w)) (printed w)) e).
    + cbn [camera_held frames_read printed]. f_equal. f_equal. lia.
    + lia.
    + intros j Hj. cbn [frames_read].
      replace (S (frames_read w) + j)%nat with (frames_read w + S j)%nat by lia.
      apply Hbefore. lia.
    + cbn [frames_read].
      replace (S (frames_read w) + k)%nat with (frames_read w + S k)%nat by lia.
      exact Hraise.
Qed.

(** X21.  When one of the ten reads raises, [camera_grab] stops reading
    there and the exception reaches the caller as it is: no further frame
    is read, nothing is printed, neither [cv2.cvtColor] nor the fallback
    file is used, and the camera is released. *)
Theorem camera_grab_read_exception
        (camera_id : Z) (fallback_filename : option string) (w : world)
        (k : nat) (e : exn) :
  (k < 10)%nat ->
  (forall j, (j < k)%nat -> returned (read_outcome (frames_read w + j)) = true) ->
  read_outcome (frames_read w + k) = Raise e ->
  camera_grab image read_outcome cvtColor imread camera_id fallback_filename w
  = (Raise e, World false (frames_read w + S k) (printed w)).
Proof.
  intros Hk Hbefore Hraise.
  unfold camera_grab, seq_action at 1, video_capture, try_finally, grab_body, seq_action.
  rewrite (read_loop_raises 10 k (false, PyNone)
             (World true (frames_read w) (printed w)) e Hk Hbefore Hraise).
  reflexivity.
Qed.

End CameraPaths.

Lemma camera_grab_snapshot_witness :
  Camera.camera_grab nat
    (fun k => if (k <? 4)%nat then Ok (false, Camera.PyNone) else Ok (true, Camera.Img k))
    (fun v => match v with Camera.Img i => Ok (Camera.Img (100 + i)%nat) | _ => Raise CvError end)
    (fun _ => Ok (Camera.Img 7%nat))
    0 (Some "laptop.jpeg"%string) (Camera.World false 0 [])
  = (Ok (Camera.Img 109%nat), Camera.World false 10 []).
Proof.
  apply (camera_grab_snapshot nat
           (fun k => if (k <? 4)%nat then Ok (false, Camera.PyNone) else Ok (true, Camera.Img k))
           (fun v => match v with Camera.Img i => Ok (Camera.Img (100 + i)%nat) | _ => Raise CvError end)
           (fun _ => Ok (Camera.Img 7%nat))
           0 (Some "laptop.jpeg"%string) (Camera.World false 0 []) (Camera.Img 9%nat)).
  - intros k _. cbn [Camera.frames_read]. destruct (0 + k <? 4)%nat; reflexivity.
  - reflexivity.
Defined.

Lemma camera_grab_no_fallback_witness :
  Camera.camera_grab nat
    (fun k => Ok (false, Camera.PyNone))
    (fun v => Ok v)
    (fun _ => Ok (Camera.Img 7%nat))
    0 (Some EmptyString) (Camera.World false 0 [])
  = (Ok Camera.PyNone,
     Camera.World false 10 ["WARNING: could not access camera"%string]).
Proof.
  apply (camera_grab_no_fallback nat
           (fun k => Ok (false, Camera.PyNone))
           (fun v => Ok v)
           (fun _ => Ok (Camera.Img 7%nat))
           0 (Some EmptyString) (Camera.World false 0 []) Camera.PyNone).
  - intros k _. reflexivity.
  - reflexivity.
  - right. reflexivity.
Defined.

Lemma camera_grab_read_exception_witness :
  Camera.camera_grab nat
    (fun k => if (k <? 4)%nat then Ok (true, Camera.Img 1%nat) else Raise CvError)
    (fun v => Ok v)
    (fun _ => Ok (Camera.Img 7%nat))
    0 (Some "laptop.jpeg"%string) (Camera.World false 0 [])
  = (Raise CvError, Camera.World false 5 []).
Proof.
  apply (camera_grab_read_exception nat
           (fun k => if (k <? 4)%nat then Ok (true, Camera.Img 1%nat) else Raise CvError)
           (fun v => Ok v)
           (fun _ => Ok (Camera.Img 7%nat))
           0 (Some "laptop.jpeg"%string) (Camera.World false 0 []) 4%nat CvError).
  - lia.
  - intros j Hj. cbn [Camera.frames_read].
    destruct (0 + j <? 4)%nat eqn:E; [reflexivity|].
    apply Nat.ltb_ge in E. lia.
  - reflexivity.
Defined.

(** ** Loading the corpus *)

Lemma py_prefix_app {A : Type} (text : list A) (k : Z) :
  exists rest, text = py_prefix text k ++ rest.
Proof.
  unfold py_prefix. destruct (k <? 0); eexists; symmetry; apply firstn_skipn.
Qed.

(** X22.  Whatever the float arithmetic, [load_dataset] raises what reading
    the file raises, then what [int(fraction * len(raw_text))] raises, and
    otherwise returns a prefix of the text of the file.  With [k] the
    integer that [int(.)] gave: the whole text when [k] is the length of the
    text or more, the first [k] characters when [k] is between 0 and the
    length, and, when [k] is negative, the text without its last [-k]
    characters, so that a negative fraction does not give an empty text in
    general. *)
Theorem load_dataset_prefix (F : Type) (N : Numeric F)
        (char : Type) (read_text : string -> result (list char))
        (file_path : string) (fraction : F) :
  match read_text file_path with
  | Raise e => load_dataset char read_text file_path fraction = Raise e
  | Ok raw =>
      match (len <- of_int (Z.of_nat (List.length raw)) ;; to_int (fmul fraction len)) with
      | Raise e => load_dataset char read_text file_path fraction = Raise e
      | Ok k =>
          exists text : list char,
            load_dataset char read_text file_path fraction = Ok text /\
            (exists rest, raw = text ++ rest) /\
            (Z.of_nat (List.length raw) <= k -> text = raw) /\
            (0 <= k <= Z.of_nat (List.length raw) ->
             text = firstn (Z.to_nat k) raw /\ Z.of_nat (List.length text) = k) /\
            (k < 0 ->
             Z.of_nat (List.length text) = Z.max 0 (Z.of_nat (List.length raw) + k))
      end
  end.
Proof.
  unfold load_dataset.
  destruct (read_text file_path) as [raw | e]; [|reflexivity]. cbn [Py.bind].
  destruct (of_int (Z.of_nat (List.length raw))) as [len | e]; [|reflexivity].
  cbn [Py.bind].
  destruct (to_int (fmul fraction len)) as [k | e]; [|reflexivity].
  cbn [Py.bind].
  exists (py_prefix raw k). split; [reflexivity|].
  split; [apply py_prefix_app|].
  unfold py_prefix. split; [|split].
  - intros Hk. destruct (k <? 0) eqn:Hneg; [apply Z.ltb_lt in Hneg; lia|].
    apply firstn_all2. lia.
  - intros [Hk0 Hk1]. destruct (k <? 0) eqn:Hneg; [apply Z.ltb_lt in Hneg; lia|].
    split; [reflexivity|]. rewrite length_firstn. lia.
  - intros Hneg. apply Z.ltb_lt in Hneg. rewrite Hneg. apply Z.ltb_lt in Hneg.
    rewrite length_firstn. lia.
Qed.

(** In binary64: a tenth of a text of thirty characters, as in the call
    of the notebook, and the text without its last three characters for a
    fraction of minus a tenth. *)
Example load_dataset_tenth :
  load_dataset (F := float) nat (fun _ => Ok (seq 0 30)) "shakespeare.txt"
               0x1.999999999999ap-4%float
  = Ok [0; 1; 2]%nat /\
  load_dataset (F := float) nat (fun _ => Ok (seq 0 30)) "shakespeare.txt"
               (-0x1.999999999999ap-4)%float
  = Ok (seq 0 27).
Proof. split; vm_compute; reflexivity. Qed.

(** ** The embedding matrix *)

Section EmbeddingFacts.

Variable row : Type.
Variable zero_row : row.

Lemma set_nth_length (matrix : list row) (n : nat) (v : row) :
  List.length (set_nth row matrix n v) = List.length matrix.
Proof.
  revert n. induction matrix as [| r rest IH]; intros n; [reflexivity|].
  destruct n; simpl; [reflexivity | rewrite IH; reflexivity].
Qed.

Lemma set_nth_same (matrix : list row) (n : nat) (v d : row) :
  (n < List.length matrix)%nat -> nth n (set_nth row matrix n v) d = v.
Proof.
  revert n. induction matrix as [| r rest IH]; intros n Hn; [simpl in Hn; lia|].
  destruct n; simpl; [reflexivity | apply IH; simpl in Hn; lia].
Qed.

Lemma set_nth_other (matrix : list row) (n j : nat) (v d : row) :
  n <> j -> nth j (set_nth row matrix n v) d = nth j matrix d.
Proof.
  revert n j. induction matrix as [| r rest IH]; intros n j Hnj; [reflexivity|].
  destruct n, j; simpl; try reflexivity; try lia.
  apply IH. lia.
Qed.

Lemma fill_embeddings_spec (VOCAB_SIZE : Z) (embeddings_index : string -> option row)
      (items : list (string * Z)) :
  forall matrix : list row,
    Z.of_nat (List.length matrix) = VOCAB_SIZE ->
    Forall (fun item => 0 <= snd item) items ->
    NoDup (map snd items) ->
    exists filled : list row,
      fill_embeddings row VOCAB_SIZE embeddings_index items matrix = Ok filled /\
      List.length filled = List.length matrix /\
      (forall word i v,
          In (word, i) items -> i < VOCAB_SIZE -> embeddings_index word = Some v ->
          nth (Z.to_nat i) filled zero_row = v) /\
      (forall j : nat,
          (forall word i v,
              In (word, i) items -> i < VOCAB_SIZE ->
              embeddings_index word = Some v -> Z.to_nat i <> j) ->
          nth j filled zero_row = nth j matrix zero_row).
Proof.
  induction items as [| [word i] rest IH]; intros matrix Hsize Hpos Hnodup.
  - exists matrix. simpl. split; [reflexivity|]. split; [reflexivity|].
    split; [intros ? ? ? [] | reflexivity].
  - inversion Hpos as [| x l Hi Hrest]; subst x l. simpl in Hi.
    simpl map in Hnodup.
    inversion Hnodup as [| y l' Hnotin Hnd]; subst y l'.
    simpl fill_embeddings.
    destruct (i <? VOCAB_SIZE) eqn:Hlt;
      [apply Z.ltb_lt in Hlt; destruct (embeddings_index word) as [vec |] eqn:Hemb|].
    + unfold assign_row. cbv zeta.
      replace ((i <? - Z.of_nat (List.length matrix))
               || (Z.of_nat (List.length matrix) <=? i)) with false
        by (symmetry; apply orb_false_iff; split;
            [apply Z.ltb_ge | apply Z.leb_gt]; lia).
      replace (i <? 0) with false by (symmetry; apply Z.ltb_ge; exact Hi).
      cbn [Py.bind].
      destruct (IH (set_nth row matrix (Z.to_nat i) vec)) as (filled & Hf & Hlen & Hset & Hkeep);
        [rewrite set_nth_length; exact Hsize | exact Hrest | exact Hnd |].
      exists filled. split; [exact Hf|]. rewrite set_nth_length in Hlen.
      split; [exact Hlen|]. split.
      * intros w k v [Heq | Hin] Hk Hv.
        -- injection Heq as <- <-. rewrite Hkeep.
           ++ rewrite set_nth_same by lia. congruence.
           ++ intros w' k' v' Hin' _ _ Hsame. apply Hnotin.
              apply in_map_iff. exists (w', k'). split; [|exact Hin'].
              simpl. rewrite Forall_forall in Hrest.
              pose proof (Hrest _ Hin') as Hk'. simpl in Hk'. lia.
        -- apply (Hset w k v Hin Hk Hv).
      * intros j Hfree. rewrite Hkeep.
        -- apply set_nth_other. apply (Hfree word i vec); [left; reflexivity | exact Hlt | exact Hemb].
        -- intros w' k' v' Hin'. apply Hfree. right. exact Hin'.
    + destruct (IH matrix Hsize Hrest Hnd) as (filled & Hf & Hlen & Hset & Hkeep).
      exists filled. split; [exact Hf|]. split; [exact Hlen|]. split.
      * intros w k v [Heq | Hin] Hk Hv; [injection Heq as <- <-; congruence|].
        apply (Hset w k v Hin Hk Hv).
      * intros j Hfree. apply Hkeep.
        intros w' k' v' Hin'. apply Hfree. right. exact Hin'.
    + apply Z.ltb_ge in Hlt.
      destruct (IH matrix Hsize Hrest Hnd) as (filled & Hf & Hlen & Hset & Hkeep).
      exists filled. split; [exact Hf|]. split; [exact Hlen|]. split.
      * intros w k v [Heq | Hin] Hk Hv; [injection Heq as <- <-; lia|].
        apply (Hset w k v Hin Hk Hv).
      * intros j Hfree. apply Hkeep.
        intros w' k' v' Hin'. apply Hfree. right. exact Hin'.
Qed.

(** X24.  For a tokenizer whose word indices are distinct and not
    negative, building the embedding matrix never raises: the matrix has
    [VOCAB_SIZE] rows, the row of every word of index below [VOCAB_SIZE]
    that has a pre-trained vector is that vector, and every other row is
    left at zero.  Words of index [VOCAB_SIZE] or more are skipped. *)
Theorem build_embedding_matrix_rows
        (VOCAB_SIZE : Z) (embeddings_index : string -> option row)
        (word_index : list (string * Z)) :
  0 <= VOCAB_SIZE ->
  Forall (fun item => 0 <= snd item) word_index ->
  NoDup (map snd word_index) ->
  exists embedding_matrix : list row,
    build_embedding_matrix row zero_row VOCAB_SIZE embeddings_index word_index
    = Ok embedding_matrix /\
    Z.of_nat (List.length embedding_matrix) = VOCAB_SIZE /\
    (forall word i v,
        In (word, i) word_index -> i < VOCAB_SIZE -> embeddings_index word = Some v ->
        nth (Z.to_nat i) embedding_matrix zero_row = v) /\
    (forall j : nat,
        (forall word i v,
            In (word, i) word_index -> i < VOCAB_SIZE ->
            embeddings_index word = Some v -> Z.to_nat i <> j) ->
        nth j embedding_matrix zero_row = zero_row).
Proof.
  intros HV Hpos Hnodup. unfold build_embedding_matrix.
  replace (VOCAB_SIZE <? 0) with false by (symmetry; apply Z.ltb_ge; exact HV).
  destruct (fill_embeddings_spec VOCAB_SIZE embeddings_index word_index
              (repeat zero_row (Z.to_nat VOCAB_SIZE)))
    as (filled & Hf & Hlen & Hset & Hkeep);
    [rewrite repeat_length; lia | exact Hpos | exact Hnodup |].
  exists filled. split; [exact Hf|].
  rewrite repeat_length in Hlen. split; [lia|]. split; [exact Hset|].
  intros j Hfree. rewrite (Hkeep j Hfree).
  destruct (Nat.lt_ge_cases j (Z.to_nat VOCAB_SIZE)) as [Hj | Hj].
  - apply nth_repeat_lt. exact Hj.
  - apply nth_overflow. rewrite repeat_length. exact Hj.
Qed.

End EmbeddingFacts.

Lemma build_embedding_matrix_rows_witness :
  exists embedding_matrix : list nat,
    build_embedding_matrix nat 0%nat 3
      (fun w => if String.eqb w "the" then Some 11%nat
                else if String.eqb w "zebra" then Some 44%nat else None)
      [("the"%string, 1); ("king"%string, 2); ("zebra"%string, 3)]
    = Ok embedding_matrix /\
    Z.of_nat (List.length embedding_matrix) = 3.
Proof.
  destruct (build_embedding_matrix_rows nat 0%nat 3
              (fun w => if String.eqb w "the" then Some 11%nat
                        else if String.eqb w "zebra" then Some 44%nat else None)
              [("the"%string, 1); ("king"%string, 2); ("zebra"%string, 3)])
    as (M & HM & Hlen & _).
  - lia.
  - repeat constructor; simpl; lia.
  - simpl. repeat constructor; simpl; intuition lia.
  - exists M. split; [exact HM | exact Hlen].
Defined.

(** The matrix of that tokenizer: the row of "the", and zeros for the
    padding index and for "king", which has no vector; "zebra", of index
    [VOCAB_SIZE], is skipped. *)
Example build_embedding_matrix_example :
  build_embedding_matrix nat 0%nat 3
    (fun w => if String.eqb w "the" then Some 11%nat
              else if String.eqb w "zebra" then Some 44%nat else None)
    [("the"%string, 1); ("king"%string, 2); ("zebra"%string, 3)]
  = Ok [0; 11; 0]%nat.
Proof. reflexivity. Qed.

(** ** The round trip in binary64 *)

Lemma float_to_int_shift_eq (x : float) : float_to_int_shift x = float_to_int x.
Proof.
  unfold float_to_int_shift, float_to_int.
  destruct (Prim2SF x) as [s | s | | s m [| p | p]]; try reflexivity.
  - rewrite Z.shiftl_mul_pow2 by discriminate. reflexivity.
  - rewrite Z.shiftr_div_pow2 by discriminate. reflexivity.
Qed.

Lemma axis_round_trip_tail (c0 c1 n : Z) (two zero res n' x1 x2 : float) :
  of_int (F := float) 2 = Ok two -> of_int (F := float) 0 = Ok zero ->
  of_int (F := float) img_resize = Ok res -> of_int (F := float) n = Ok n' ->
  int_truediv (F := float) (c0 * img_resize) n = Ok x1 ->
  int_truediv (F := float) (c1 * img_resize) n = Ok x2 ->
  axis_round_trip (F := float) c0 c1 n = axis_tail two zero res n' x1 x2.
Proof.
  intros Htwo Hzero Hres Hn X1 X2.
  unfold axis_round_trip, axis_tail, rescale.
  rewrite X1, X2, Htwo, Hzero, Hres, Hn. cbn [Py.bind].
  destruct (fdiv (fadd x2 x1) two) as [cx | e]; cbn [Py.bind]; [|reflexivity].
  destruct (fdiv (fsub x2 x1) two) as [hw | e]; cbn [Py.bind]; [|reflexivity].
  destruct (fdiv (fmul (pymax zero (fsub cx hw)) n') res) as [q0 | e];
    cbn [Py.bind]; [|reflexivity].
  change (to_int q0) with (float_to_int q0). rewrite float_to_int_shift_eq.
  destruct (float_to_int q0) as [f0 | e]; cbn [Py.bind]; [|reflexivity].
  destruct (fdiv (fmul (pymin res (fadd cx hw)) n') res) as [q1 | e];
    cbn [Py.bind]; [|reflexivity].
  change (to_int q1) with (float_to_int q1). rewrite float_to_int_shift_eq.
  reflexivity.
Qed.

Lemma scaled_from_nth (n : Z) (count : nat) :
  forall (k : Z) (i : nat),
    (i < count)%nat ->
    nth_error (scaled_from n k count) i
    = Some (int_truediv (F := float) ((k + Z.of_nat i) * img_resize) n).
Proof.
  induction count as [| c IH]; intros k i Hi; [lia|].
  destruct i as [| i]; simpl.
  - rewrite Z.add_0_r. reflexivity.
  - rewrite IH by lia. do 3 f_equal. lia.
Qed.

Lemma tails_ok_nth (two zero res n' : float) (c0 : Z) (r0 : result float)
      (rs : list (result float)) :
  forall (c1 : Z) (j : nat) (r1 : result float),
    tails_ok two zero res n' c0 r0 c1 rs = true ->
    nth_error rs j = Some r1 ->
    pair_ok two zero res n' c0 (c1 + Z.of_nat j) r0 r1 = true.
Proof.
  induction rs as [| r rest IH]; intros c1 j r1 Hall Hj; [destruct j; discriminate|].
  simpl in Hall. apply andb_true_iff in Hall. destruct Hall as [Hhead Hrest].
  destruct j as [| j]; simpl in Hj.
  - injection Hj as <-. rewrite Z.add_0_r. exact Hhead.
  - replace (c1 + Z.of_nat (S j)) with (c1 + 1 + Z.of_nat j) by lia.
    apply IH; assumption.
Qed.

Lemma all_ok_nth (two zero res n' : float) (rs : list (result float)) :
  forall (c0 : Z) (i j : nat) (r0 r1 : result float),
    all_ok two zero res n' c0 rs = true ->
    nth_error rs i = Some r0 -> nth_error rs (i + j) = Some r1 ->
    pair_ok two zero res n' (c0 + Z.of_nat i) (c0 + Z.of_nat i + Z.of_nat j) r0 r1 = true.
Proof.
  induction rs as [| r rest IH]; intros c0 i j r0 r1 Hall Hi Hj;
    [destruct i; discriminate|].
  simpl in Hall. apply andb_true_iff in Hall. destruct Hall as [Hhead Hrest].
  destruct i as [| i]; simpl in Hi.
  - injection Hi as <-. rewrite Z.add_0_r.
    apply andb_true_iff in Hhead.
    apply (tails_ok_nth two zero res n' c0 r (r :: rest) c0 j r1);
      [simpl; apply andb_true_iff; exact Hhead | exact Hj].
  - replace (c0 + Z.of_nat (S i)) with (c0 + 1 + Z.of_nat i) by lia.
    apply IH; assumption.
Qed.

Lemma axis_all_ok_pair (n : nat) (c0 c1 : Z) :
  axis_all_ok n = true -> 0 <= c0 <= c1 -> c1 <= Z.of_nat n ->
  axis_ok (Z.of_nat n) c0 c1 = true.
Proof.
  unfold axis_all_ok. intros Hall Hc Hn.
  destruct (of_int (F := float) 2) as [two | e] eqn:Htwo; [|discriminate].
  destruct (of_int (F := float) 0) as [zero | e] eqn:Hzero; [|discriminate].
  destruct (of_int (F := float) img_resize) as [res | e] eqn:Hres; [|discriminate].
  destruct (of_int (F := float) (Z.of_nat n)) as [n' | e] eqn:Hn'; [|discriminate].
  pose proof (all_ok_nth two zero res n' _ 0 (Z.to_nat c0) (Z.to_nat (c1 - c0))
                _ _ Hall
                (scaled_from_nth (Z.of_nat n) (S n) 0 (Z.to_nat c0) ltac:(lia))
                (scaled_from_nth (Z.of_nat n) (S n) 0
                                 (Z.to_nat c0 + Z.to_nat (c1 - c0)) ltac:(lia)))
    as Hpair.
  replace (0 + Z.of_nat (Z.to_nat c0 + Z.to_nat (c1 - c0))) with c1 in Hpair by lia.
  replace (0 + Z.of_nat (Z.to_nat c0) + Z.of_nat (Z.to_nat (c1 - c0))) with c1
    in Hpair by lia.
  replace (0 + Z.of_nat (Z.to_nat c0)) with c0 in Hpair by lia.
  unfold pair_ok in Hpair. unfold axis_ok.
  destruct (int_truediv (F := float) (c0 * img_resize) (Z.of_nat n))
    as [x1 | e] eqn:X1; [|discriminate].
  destruct (int_truediv (F := float) (c1 * img_resize) (Z.of_nat n))
    as [x2 | e] eqn:X2; [|discriminate].
  rewrite (axis_round_trip_tail c0 c1 (Z.of_nat n) two zero res n' x1 x2
             Htwo Hzero Hres Hn' X1 X2).
  exact Hpair.
Qed.

Lemma float_label_row (s : string) (idx : Z) :
  labels2idx s = Ok idx ->
  argmax (one_hot (F := float) idx) = Ok idx /\
  nth (Z.to_nat idx) (one_hot (F := float) idx) (of_Z 0) = 1%float /\
  idx2labels idx = Ok s.
Proof.
  unfold labels2idx, filters, index_from.
  repeat match goal with
         | |- context [String.eqb ?x s] =>
             destruct (String.eqb_spec x s) as [<- | _]
         end;
    intros E; inversion E; subst; repeat split; vm_compute; reflexivity.
Qed.

Lemma float_round_trip_axes (a : annotation) (a0 a1 b0 b1 : Z) :
  In (ann_class a) filters ->
  axis_round_trip (F := float) (x_min (ann_bbox a)) (x_max (ann_bbox a)) (fst (ann_size a))
  = Ok (a0, a1) ->
  axis_round_trip (F := float) (y_min (ann_bbox a)) (y_max (ann_bbox a)) (snd (ann_size a))
  = Ok (b0, b1) ->
  sanity_check (F := float) [a] 0 = Ok (Output (ann_class a) 1%float (Box a0 b0 a1 b1)).
Proof.
  intros Hin Hx Hy.
  destruct (labels2idx_total _ Hin) as [idx Hidx].
  destruct (float_label_row _ _ Hidx) as (Harg & Hconf & Hname).
  unfold axis_round_trip in Hx, Hy.
  apply bind_Ok in Hx. destruct Hx as (x1 & X1 & Hx).
  apply bind_Ok in Hx. destruct Hx as (x2 & X2 & Hx).
  apply bind_Ok in Hx. destruct Hx as (two & Htwo & Hx).
  apply bind_Ok in Hx. destruct Hx as (cx & Hcx & Hx).
  apply bind_Ok in Hx. destruct Hx as (two' & Htwo' & Hx).
  apply bind_Ok in Hx. destruct Hx as (zero & Hzero & Hx).
  apply bind_Ok in Hx. destruct Hx as (res & Hres & Hx).
  apply bind_Ok in Hx. destruct Hx as (hw & Hhw & Hx).
  apply bind_Ok in Hx. destruct Hx as (hw' & Hhw' & Hx).
  apply bind_Ok in Hx. destruct Hx as (f0 & Hf0 & Hx).
  apply bind_Ok in Hx. destruct Hx as (f1 & Hf1 & Hx).
  injection Hx as <- <-.
  apply bind_Ok in Hy. destruct Hy as (y1 & Y1 & Hy).
  apply bind_Ok in Hy. destruct Hy as (y2 & Y2 & Hy).
  apply bind_Ok in Hy. destruct Hy as (twoy & Htwoy & Hy).
  apply bind_Ok in Hy. destruct Hy as (cy & Hcy & Hy).
  apply bind_Ok in Hy. destruct Hy as (twoy' & Htwoy' & Hy).
  apply bind_Ok in Hy. destruct Hy as (zeroy & Hzeroy & Hy).
  apply bind_Ok in Hy. destruct Hy as (resy & Hresy & Hy).
  apply bind_Ok in Hy. destruct Hy as (hh & Hhh & Hy).
  apply bind_Ok in Hy. destruct Hy as (hh' & Hhh' & Hy).
  apply bind_Ok in Hy. destruct Hy as (g0 & Hg0 & Hy).
  apply bind_Ok in Hy. destruct Hy as (g1 & Hg1 & Hy).
  injection Hy as <- <-.
  assert (two' = two) by congruence. assert (twoy = two) by congruence.
  assert (twoy' = two) by congruence. assert (zeroy = zero) by congruence.
  assert (resy = res) by congruence. subst two' twoy twoy' zeroy resy.
  assert (hw' = hw) by congruence. assert (hh' = hh) by congruence. subst hw' hh'.
  unfold sanity_check, tensorize_ground_truth. cbn [tensorize_all].
  unfold tensorize_annotation. rewrite Hidx. cbn [Py.bind].
  rewrite X1. cbn [Py.bind]. rewrite Y1. cbn [Py.bind].
  rewrite X2. cbn [Py.bind]. rewrite Y2. cbn [Py.bind].
  rewrite Htwo. cbn [Py.bind]. rewrite Hcx. cbn [Py.bind]. rewrite Hcy. cbn [Py.bind].
  cbn [nth_error]. unfold interpret_output.
  rewrite Harg. cbn [Py.bind]. rewrite Hname. cbn [Py.bind].
  unfold small_box. cbn [c_x c_y c_w c_h].
  rewrite Htwo, Hzero, Hres. cbn [Py.bind].
  rewrite Hhw. cbn [Py.bind]. rewrite Hhh. cbn [Py.bind].
  rewrite Hf0. cbn [Py.bind]. rewrite Hg0. cbn [Py.bind].
  rewrite Hf1. cbn [Py.bind]. rewrite Hg1. cbn [Py.bind].
  rewrite Hconf. reflexivity.
Qed.

Lemma axis_all_ok_width : axis_all_ok 500 = true.
Proof. vm_cast_no_check (eq_refl true). Qed.

Lemma axis_all_ok_height : axis_all_ok 333 = true.
Proof. vm_cast_no_check (eq_refl true). Qed.

Lemma within_one_bounds (c r : Z) : within_one c r = true -> c - 1 <= r <= c.
Proof. unfold within_one. rewrite orb_true_iff, !Z.eqb_eq. lia. Qed.

(** X25.  On an image of the default size of [interpret_output], 500 x
    333, the binary64 round trip of the sanity check never fails and is
    never off by more than one pixel: for every annotation of a known class
    whose box has ordered integer corners within the image, each coordinate
    that comes back is the original one or the one just below it. *)
Theorem float_round_trip_default_size (a : annotation) :
  In (ann_class a) filters ->
  ann_size a = (500, 333) ->
  0 <= x_min (ann_bbox a) <= x_max (ann_bbox a) -> x_max (ann_bbox a) <= 500 ->
  0 <= y_min (ann_bbox a) <= y_max (ann_bbox a) -> y_max (ann_bbox a) <= 333 ->
  exists o : output float,
    sanity_check (F := float) [a] 0 = Ok o /\
    out_class o = ann_class a /\
    x_min (ann_bbox a) - 1 <= x_min (out_bbox o) <= x_min (ann_bbox a) /\
    y_min (ann_bbox a) - 1 <= y_min (out_bbox o) <= y_min (ann_bbox a) /\
    x_max (ann_bbox a) - 1 <= x_max (out_bbox o) <= x_max (ann_bbox a) /\
    y_max (ann_bbox a) - 1 <= y_max (out_bbox o) <= y_max (ann_bbox a).
Proof.
  intros Hin Hsize Hx Hx1 Hy Hy1.
  pose proof (axis_all_ok_pair 500 _ _ axis_all_ok_width Hx Hx1) as Hxok.
  pose proof (axis_all_ok_pair 333 _ _ axis_all_ok_height Hy Hy1) as Hyok.
  unfold axis_ok in Hxok, Hyok.
  destruct (axis_round_trip (F := float) (x_min (ann_bbox a)) (x_max (ann_bbox a))
                            (Z.of_nat 500)) as [[a0 a1] | e] eqn:Ex; [|discriminate].
  destruct (axis_round_trip (F := float) (y_min (ann_bbox a)) (y_max (ann_bbox a))
                            (Z.of_nat 333)) as [[b0 b1] | e] eqn:Ey; [|discriminate].
  apply andb_true_iff in Hxok. destruct Hxok as [Ha0 Ha1].
  apply andb_true_iff in Hyok. destruct Hyok as [Hb0 Hb1].
  apply within_one_bounds in Ha0, Ha1, Hb0, Hb1.
  exists (Output (ann_class a) 1%float (Box a0 b0 a1 b1)).
  split.
  - apply float_round_trip_axes; [exact Hin | |]; rewrite Hsize; assumption.
  - cbn [out_class out_bbox x_min y_min x_max y_max]. auto.
Qed.

Lemma float_round_trip_default_size_witness :
  exists o : output float,
    sanity_check (F := float)
      [Annotation (500, 333) "000001.jpg" "dog" (Box 47 35 147 101)] 0 = Ok o /\
    out_class o = "dog"%string /\
    47 - 1 <= x_min (out_bbox o) <= 47 /\
    35 - 1 <= y_min (out_bbox o) <= 35 /\
    147 - 1 <= x_max (out_bbox o) <= 147 /\
    101 - 1 <= y_max (out_bbox o) <= 101.
Proof.
  apply (float_round_trip_default_size
           (Annotation (500, 333) "000001.jpg" "dog" (Box 47 35 147 101))).
  - simpl. auto.
  - reflexivity.
  - simpl. lia.
  - simpl. lia.
  - simpl. lia.
  - simpl. lia.
Defined.

(** ** The regression targets *)

Lemma scaled_mono (c c' n : Z) : c <= c' -> 0 < n -> (scaled c n <= scaled c' n)%Q.
Proof.
  intros Hc Hn. unfold scaled, Qdiv. apply Qmult_le_compat_r.
  - rewrite <- Zle_Qle. unfold img_resize. lia.
  - apply Qinv_le_0_compat. change 0%Q with (inject_Z 0). rewrite <- Zle_Qle. lia.
Qed.

Lemma tensorized_in_resized_image (a : annotation) :
  within_image a -> ordered (ann_bbox a) ->
  exists cls b,
    tensorize_annotation (F := Q) a = Ok (cls, b) /\ in_resized_image b.
Proof.
  intros (Hin & HW & HH & Hx0 & Hx1 & Hy0 & Hy1) [Hox Hoy].
  destruct (labels2idx_total _ Hin) as [idx Hidx].
  eexists. eexists. split.
  - apply tensorize_annotation_exact; [exact Hidx | lia | lia].
  - unfold in_resized_image. cbn [c_x c_y c_w c_h].
    pose proof (scaled_nonneg _ _ Hx0 HW) as A0.
    pose proof (scaled_mono _ _ _ Hox HW) as A1.
    pose proof (scaled_le_resize _ _ Hx1 HW) as A2.
    pose proof (scaled_nonneg _ _ Hy0 HH) as B0.
    pose proof (scaled_mono _ _ _ Hoy HH) as B1.
    pose proof (scaled_le_resize _ _ Hy1 HH) as B2.
    change (inject_Z 2) with 2%Q.
    set (X1 := scaled (x_min (ann_bbox a)) (fst (ann_size a))) in *.
    set (X2 := scaled (x_max (ann_bbox a)) (fst (ann_size a))) in *.
    set (Y1 := scaled (y_min (ann_bbox a)) (snd (ann_size a))) in *.
    set (Y2 := scaled (y_max (ann_bbox a)) (snd (ann_size a))) in *.
    assert (Ex0 : ((X2 + X1) / 2 - (X2 - X1) / 2 == X1)%Q) by field.
    assert (Ex1 : ((X2 + X1) / 2 + (X2 - X1) / 2 == X2)%Q) by field.
    assert (Ey0 : ((Y2 + Y1) / 2 - (Y2 - Y1) / 2 == Y1)%Q) by field.
    assert (Ey1 : ((Y2 + Y1) / 2 + (Y2 - Y1) / 2 == Y2)%Q) by field.
    rewrite Ex0, Ex1, Ey0, Ey1.
    split; [lra|]. split; [lra|]. auto.
Qed.

(** X26.  The boxes [tensorize_ground_truth] returns for annotations with
    ordered corners within their images are proper regression targets
    (exact arithmetic): every width and height is at least 0, and every
    box, taken from its center and size, lies within the resized image of
    [img_resize] pixels each way. *)
Theorem tensorize_ground_truth_targets (annotations : list annotation) :
  annotations <> [] ->
  Forall (fun a => within_image a /\ ordered (ann_bbox a)) annotations ->
  exists (classes : list (list Q)) (boxes : list (center_box Q)),
    tensorize_ground_truth annotations = Ok (classes, boxes) /\
    Forall in_resized_image boxes.
Proof.
  intros Hne Hall.
  assert (Hrows : exists rows : list (list Q * center_box Q),
             Forall2 (fun a r => tensorize_annotation a = Ok r) annotations rows /\
             Forall in_resized_image (map snd rows)).
  { clear Hne. induction Hall as [| a l [Hw Ho] _ (rows & Hr & Hb)].
    - exists []. split; constructor.
    - destruct (tensorized_in_resized_image a Hw Ho) as (cls & b & Ht & Hin).
      exists ((cls, b) :: rows). split; constructor; assumption. }
  destruct Hrows as (rows & Hr & Hb).
  unfold tensorize_ground_truth.
  rewrite (tensorize_all_rows Q exact annotations rows Hr). cbn [Py.bind].
  destruct rows as [| r rows']; [inversion Hr; subst; contradiction|].
  exists (map fst (r :: rows')), (map snd (r :: rows')).
  split; [reflexivity | exact Hb].
Qed.

Lemma tensorize_ground_truth_targets_witness :
  exists (classes : list (list Q)) (boxes : list (center_box Q)),
    tensorize_ground_truth
      [Annotation (500, 333) "000001.jpg" "dog" (Box 47 35 147 101)]
    = Ok (classes, boxes) /\
    Forall in_resized_image boxes.
Proof.
  apply (tensorize_ground_truth_targets
           [Annotation (500, 333) "000001.jpg" "dog" (Box 47 35 147 101)]).
  - discriminate.
  - repeat constructor; simpl; auto 10; lia.
Defined.

(** ** Further concrete runs *)

Lemma labels_bijection_witness :
  labels2idx "person" = Raise KeyError /\ idx2labels 5 = Raise KeyError.
Proof.
  destruct (labels_bijection "person" 5) as (_ & _ & _ & Hs & Hi).
  split.
  - apply Hs. simpl. intros [E | [E | [E | [E | [E | []]]]]]; discriminate E.
  - apply Hi. unfold num_classes. simpl. lia.
Defined.

(** In binary64 the product of the fraction 0.29 and the length 100 is
    just below 29, and [int(.)] makes it 28. *)
Lemma load_dataset_prefix_witness :
  exists text : list nat,
    load_dataset (F := float) nat (fun _ => Ok (seq 0 100)) "shakespeare.txt"
                 0x1.28f5c28f5c28fp-2%float = Ok text /\
    text = seq 0 28.
Proof.
  pose proof (load_dataset_prefix float binary64 nat (fun _ => Ok (seq 0 100))
                "shakespeare.txt" 0x1.28f5c28f5c28fp-2%float) as H.
  cbv beta iota in H.
  match type of H with
  | match ?c with _ => _ end => destruct c as [k | e] eqn:E
  end.
  - vm_compute in E. injection E as <-.
    destruct H as (text & Ht & _ & _ & Hlen & _).
    exists text. split; [exact Ht|].
    destruct Hlen as [-> _]; [simpl; lia | reflexivity].
  - vm_compute in E. discriminate E.
Defined.
